(** * CLSM training driver ([clsm_pytorch.py]): checkpoint policy, metric
    windows and start-up, as a shallow embedding.

    Numbers.  Python and torch floats are modelled as exact rationals with
    one extra value [NaN] (the mean of an empty tensor); binary32/binary64
    rounding and the infinities are not modelled.  The two sizes that [run]
    derives from float products, [train_size] and [OUTPUT_FREQ], are also
    given in IEEE binary64 ([Module Binary64]) and compared with the exact
    versions on a range of inputs.  Python integers are [Z], loop counters
    produced by [enumerate] and [range] are [nat].

    Effects.  What the program prints, logs or saves is a list of events in
    program order; an exception ends the computation and keeps the events
    emitted before it. *)

From Stdlib Require Import ZArith QArith Qcanon Qround Lia Lra Ascii String.
From Stdlib Require Import SpecFloat.
From stdpp Require Import base option list sorting strings gmap.

Local Open Scope Z_scope.

(** ** Python numbers *)

Inductive pyfloat : Type :=
  | Fin (q : Qc)
  | NaN.

Inductive exn : Type :=
  | ZeroDivisionError
  | ValueError
  | NameError (name : string)
  | OverflowError
  | RuntimeError
  | FileNotFoundError (path : string).

Inductive outcome (A : Type) : Type :=
  | Ok (a : A)
  | Raise (e : exn).
Arguments Ok {A} a.
Arguments Raise {A} e.

Definition Qc0 : Qc := Qc_of_Z 0.
Definition Qc1 : Qc := Qc_of_Z 1.

(** [float(n)] for a Python int. *)
Definition float_of_int (n : Z) : pyfloat := Fin (Qc_of_Z n).

Definition fadd (x y : pyfloat) : pyfloat :=
  match x, y with
  | Fin a, Fin b => Fin (a + b)%Qc
  | _, _ => NaN
  end.

Definition fmul (x y : pyfloat) : pyfloat :=
  match x, y with
  | Fin a, Fin b => Fin (a * b)%Qc
  | _, _ => NaN
  end.

(** [x / y] on Python floats: a zero divisor raises, also under a NaN
    dividend. *)
Definition ftruediv (x y : pyfloat) : outcome pyfloat :=
  match y with
  | NaN => Ok NaN
  | Fin b =>
      if decide (b = Qc0) then Raise ZeroDivisionError
      else match x with
           | Fin a => Ok (Fin (a / b)%Qc)
           | NaN => Ok NaN
           end
  end.

(** [a / b] on Python ints (true division). *)
Definition int_truediv (a b : Z) : outcome pyfloat :=
  ftruediv (float_of_int a) (float_of_int b).

(** [x / n] with a float on the left and an int on the right. *)
Definition fdiv_int (x : pyfloat) (n : Z) : outcome pyfloat :=
  ftruediv x (float_of_int n).

(** [n / x] with an int on the left and a float on the right. *)
Definition int_div_float (n : Z) (x : pyfloat) : outcome pyfloat :=
  ftruediv (float_of_int n) x.

(** [int(x)]: truncation toward zero; [int(nan)] raises ValueError. *)
Definition py_int (x : pyfloat) : outcome Z :=
  match x with
  | Fin q => Ok (Z.quot (Qnum (this q)) (Z.pos (Qden (this q))))
  | NaN => Raise ValueError
  end.

(** [a % b] on Python ints: the sign follows the divisor, as [Z.modulo]
    does; a zero divisor raises. *)
Definition py_mod (a b : Z) : outcome Z :=
  if decide (b = 0) then Raise ZeroDivisionError else Ok (a mod b).

(** Comparisons: every comparison with NaN is false. *)
Definition fgt (x y : pyfloat) : bool :=
  match x, y with
  | Fin a, Fin b => bool_decide (b < a)%Qc
  | _, _ => false
  end.

Definition fge (x y : pyfloat) : bool :=
  match x, y with
  | Fin a, Fin b => bool_decide (b <= a)%Qc
  | _, _ => false
  end.

Definition feqb (x y : pyfloat) : bool :=
  match x, y with
  | Fin a, Fin b => bool_decide (a = b)
  | _, _ => false
  end.

(** The builtin [max(a, b)]: keeps [a] unless [b > a]. *)
Definition py_max (a b : pyfloat) : pyfloat :=
  if fgt b a then b else a.

(** The literals [0.02] and [0.8]. *)
Definition lit_0_02 : pyfloat := Fin (Q2Qc (2 # 100)).
Definition lit_0_8 : pyfloat := Fin (Q2Qc (8 # 10)).

(** ** Lines 81 and 92 of [run] *)

(** [train_size = int(len(train) * 0.8)] *)
Definition train_size (len_train : Z) : outcome Z :=
  py_int (fmul (float_of_int len_train) lit_0_8).

(** [OUTPUT_FREQ = int((len(train_dataset)/BATCH_SIZE)*0.02)] *)
Definition OUTPUT_FREQ (len_train_dataset BATCH_SIZE : Z) : outcome Z :=
  match int_truediv len_train_dataset BATCH_SIZE with
  | Raise e => Raise e
  | Ok q => py_int (fmul q lit_0_02)
  end.

(** The same two lines in IEEE binary64, as the interpreter computes
    them for ints below [2^53]. *)
Module Binary64.

Definition prec : Z := 53.
Definition emax : Z := 1024.

(** [float(n)] *)
Definition of_int (n : Z) : spec_float := binary_normalize prec emax n 0 false.

(** The doubles nearest to 0.02 and 0.8:
    [0x1.47ae147ae147bp-6] and [0x1.999999999999ap-1]. *)
Definition lit_0_02 : spec_float := S754_finite false 5764607523034235 (-58).
Definition lit_0_8 : spec_float := S754_finite false 7205759403792794 (-53).

(** [int(x)] *)
Definition py_int (x : spec_float) : outcome Z :=
  match x with
  | S754_zero _ => Ok 0
  | S754_finite s m e =>
      let a := if 0 <=? e then Z.pos m * 2 ^ e else Z.pos m / 2 ^ (- e) in
      Ok (if s then - a else a)
  | S754_infinity _ => Raise OverflowError
  | S754_nan => Raise ValueError
  end.

Definition train_size (len_train : Z) : outcome Z :=
  py_int (SFmul prec emax (of_int len_train) lit_0_8).

Definition OUTPUT_FREQ (len_train_dataset BATCH_SIZE : Z) : outcome Z :=
  if BATCH_SIZE =? 0 then Raise ZeroDivisionError
  else py_int (SFmul prec emax
                 (SFdiv prec emax (of_int len_train_dataset) (of_int BATCH_SIZE))
                 lit_0_02).

End Binary64.

(** Two outcomes are the same integer. *)
Definition same_int (a b : outcome Z) : bool :=
  match a, b with
  | Ok x, Ok y => x =? y
  | _, _ => false
  end.

(** ** Tensors

    A tensor after [squeeze()] and [view(-1)] is a list of floats. *)

(** [Tensor.round()]: to the nearest integer, ties to the even one. *)
Definition round_half_even (q : Qc) : Qc :=
  let f := Qfloor (this q) in
  let r := (q - Qc_of_Z f)%Qc in
  match (r ?= Q2Qc (1 # 2))%Qc with
  | Lt => Qc_of_Z f
  | Gt => Qc_of_Z (f + 1)
  | Eq => if Z.even f then Qc_of_Z f else Qc_of_Z (f + 1)
  end.

Definition fround (x : pyfloat) : pyfloat :=
  match x with
  | Fin q => Fin (round_half_even q)
  | NaN => NaN
  end.

(** [(a == b).float()] on flat tensors of one size: 1.0 where the
    elements are equal, 0.0 elsewhere. *)
Definition eq_mask (a b : list pyfloat) : list pyfloat :=
  zip_with (fun x y => if feqb x y then Fin Qc1 else Fin Qc0) a b.

(** [a == b] with broadcasting of a one-element tensor; other size
    mismatches raise. *)
Definition tensor_eq (a b : list pyfloat) : outcome (list pyfloat) :=
  if decide (length a = length b) then Ok (eq_mask a b)
  else match a, b with
       | [x], _ => Ok (eq_mask (replicate (length b) x) b)
       | _, [y] => Ok (eq_mask a (replicate (length a) y))
       | _, _ => Raise RuntimeError
       end.

Definition tensor_sum (t : list pyfloat) : pyfloat :=
  foldl fadd (Fin Qc0) t.

(** [t.mean()]: NaN on the empty tensor. *)
Definition tensor_mean (t : list pyfloat) : pyfloat :=
  match t, tensor_sum t with
  | [], _ => NaN
  | _ :: _, Fin s => Fin (s / Qc_of_Z (Z.of_nat (length t)))%Qc
  | _ :: _, NaN => NaN
  end.

(** Number of positions at which two flat tensors agree. *)
Definition matches (a b : list pyfloat) : nat :=
  length (filter (fun p => feqb p.1 p.2 = true) (zip a b)).

(** ** Command line *)

Record Args : Type := {
  batch_size : Z;
  data_batch_size : Z;
  learning_rate : pyfloat;
  epochs : Z;
  data : string;
  sparse_evidences : bool
}.

(** ** [run] *)

Section Run.

(** The collaborators of the driver: the scoring model, the loss, the
    optimizer, the datasets and their loaders, sklearn's recall. *)
Context {Claims Evidences Model PyObj : Type}.

(** [model(claims, evidences)], flattened; the flag tells [model.train()]
    from [model.eval()]. *)
Variable forward : bool -> Model -> Claims -> Evidences -> list pyfloat.
(** The value of [BCEWithLogitsLoss] on tensors of one size. *)
Variable bce_with_logits : list pyfloat -> list pyfloat -> pyfloat.
Variable sigmoid : pyfloat -> pyfloat.
(** [optimizer.zero_grad(); loss.backward(); optimizer.step()] *)
Variable optimizer_step : Model -> Claims -> Evidences -> list pyfloat -> Model.
Variable recall_score : list pyfloat -> list pyfloat -> pyfloat.
(** [cdssm.CDSSM()], moved to the device. *)
Variable init_model : Model.

(** A collated batch: [claims, evidences, labels = inputs]. *)
Record Batch : Type := {
  claims : Claims;
  evidences : Evidences;
  labels : list pyfloat
}.

(** A [DataLoader] over a [WikiDataset]: [len(dataset)], [len(loader)]
    and the batches it yields when iterated in epoch [n] (it shuffles
    again at every iteration). *)
Record DataLoader : Type := {
  dataset_len : Z;
  loader_len : Z;
  yielded : nat -> list Batch
}.

(** [DataLoader(WikiDataset(examples, claims_dict, data_batch_size,
    sparse_evidences), batch_size, ...)] *)
Variable wiki_loader :
  list PyObj -> PyObj -> Z -> option PyObj -> Z -> DataLoader.

(** A periodic report: the values formatted by the [print] of lines 147
    and 195, the elapsed wall-clock time left out. *)
Record report : Type := {
  rp_epoch : nat;
  rp_progress : pyfloat;
  rp_loss : pyfloat;
  rp_accuracy : pyfloat;
  rp_recall : pyfloat
}.

Record checkpoint : Type := {
  ck_epoch : nat;
  ck_state_dict : Model;
  ck_best_accuracy : pyfloat
}.

Inductive event : Type :=
  | EvPrint (s : string)
  | EvForward (training : bool) (c : Claims) (e : Evidences)
  | EvTrainReport (r : report)
  | EvValReport (r : report)
  | EvMeanAccuracy (epoch : nat) (train_acc : pyfloat)
  | EvSave (ck : checkpoint) (filename_accuracy : pyfloat)
  | EvSetStartMethod (method : string).

(** *** Events and exceptions *)

Definition M (A : Type) : Type := (list event * outcome A)%type.

Definition ret {A} (a : A) : M A := ([], Ok a).

Definition bind {A B} (m : M A) (k : A -> M B) : M B :=
  match m with
  | (l, Ok a) => let (l', r) := k a in (l ++ l', r)
  | (l, Raise e) => (l, Raise e)
  end.

Definition emit (ev : event) : M unit := ([ev], Ok tt).
Definition throw {A} (e : exn) : M A := ([], Raise e).
Definition lift {A} (o : outcome A) : M A := ([], o).

Notation "x <- m ;; k" := (bind m (fun x => k))
  (at level 100, m at next level, right associativity).
Notation "m ;; k" := (bind m (fun _ => k))
  (at level 100, right associativity).

(** [for x in xs: st = body(st, x)] *)
Fixpoint for_each {X S} (body : S -> X -> M S) (xs : list X) (st : S) : M S :=
  match xs with
  | [] => ret st
  | x :: xs' => st' <- body st x ;; for_each body xs' st'
  end.

Fixpoint enumerate_from {X} (i : nat) (xs : list X) : list (nat * X) :=
  match xs with
  | [] => []
  | x :: xs' => (i, x) :: enumerate_from (S i) xs'
  end.
Definition enumerate {X} (xs : list X) : list (nat * X) := enumerate_from 0 xs.

(** [criterion(y_pred, y)]: the target must have the size of the input. *)
Definition criterion (y_pred y : list pyfloat) : outcome pyfloat :=
  if decide (length y_pred = length y) then Ok (bce_with_logits y_pred y)
  else Raise ValueError.

(** Lines 138 and 189: [torch.sigmoid(y_pred).round()]. *)
Definition predict (y_pred : list pyfloat) : list pyfloat :=
  map (fun x => fround (sigmoid x)) y_pred.

(** Lines 139-140 and 190: [(y==predictions).float().mean()]. *)
Definition batch_accuracy (y predictions : list pyfloat) : outcome pyfloat :=
  match tensor_eq y predictions with
  | Ok mask => Ok (tensor_mean mask)
  | Raise e => Raise e
  end.

(** The variables of [run] that live across iterations.  [inputs] and
    [loss] are unbound until the first training batch. *)
Record locals : Type := {
  model : Model;
  best_accuracy : pyfloat;
  inputs : option Batch;
  loss : option pyfloat;
  mean_train_acc : pyfloat;
  train_running_loss : pyfloat;
  train_running_accuracy : pyfloat;
  val_running_loss : pyfloat;
  val_running_accuracy : pyfloat
}.

Definition read {A} (name : string) (v : option A) : M A :=
  match v with
  | Some a => ret a
  | None => throw (NameError name)
  end.

Definition zero : pyfloat := Fin Qc0.

(** Lines 111-116: the accumulators are cleared when an epoch starts. *)
Definition epoch_start (st : locals) : locals :=
  {| model := model st; best_accuracy := best_accuracy st;
     inputs := inputs st; loss := loss st;
     mean_train_acc := zero;
     train_running_loss := zero; train_running_accuracy := zero;
     val_running_loss := zero; val_running_accuracy := zero |}.

(** Lines 118-167: one iteration of the training loop. *)
Definition train_body (F : Z) (epoch : nat) (train_dl : DataLoader) (B : Z)
    (st : locals) (ib : nat * Batch) : M locals :=
  let (train_batch_num, b) := ib in
  emit (EvForward true (claims b) (evidences b)) ;;
  let y_pred := forward true (model st) (claims b) (evidences b) in
  let y := labels b in
  l <- lift (criterion y_pred y) ;;
  let predictions := predict y_pred in
  accuracy <- lift (batch_accuracy y predictions) ;;
  let running_accuracy := fadd (train_running_accuracy st) accuracy in
  let mean_acc := fadd (mean_train_acc st) accuracy in
  let running_loss := fadd (train_running_loss st) l in
  r <- lift (py_mod (Z.of_nat train_batch_num) F) ;;
  sums <-
    (if bool_decide (r = 0) && bool_decide (0 < train_batch_num)%nat then
       per_epoch <- lift (int_truediv (dataset_len train_dl) B) ;;
       progress <- lift (int_div_float (Z.of_nat train_batch_num) per_epoch) ;;
       mean_loss <- lift (fdiv_int running_loss F) ;;
       mean_accuracy <- lift (fdiv_int running_accuracy F) ;;
       emit (EvTrainReport
               {| rp_epoch := epoch; rp_progress := progress;
                  rp_loss := mean_loss; rp_accuracy := mean_accuracy;
                  rp_recall := recall_score y predictions |}) ;;
       ret (zero, zero)
     else ret (running_loss, running_accuracy)) ;;
  ret {| model := optimizer_step (model st) (claims b) (evidences b) y;
         best_accuracy := best_accuracy st;
         inputs := Some b; loss := Some l;
         mean_train_acc := mean_acc;
         train_running_loss := sums.1;
         train_running_accuracy := sums.2;
         val_running_loss := val_running_loss st;
         val_running_accuracy := val_running_accuracy st |}.

(** Lines 171-211: one iteration of the validation loop.  The batch
    [val_inputs] bound by the loop header is not read; the body unpacks
    [inputs] and adds [loss.item()], both left by the training loop.  The
    calls to the experiment tracker and the logger (lines 200-208) are left
    out. *)
Definition val_body (F : Z) (epoch : nat) (val_dl : DataLoader) (B : Z)
    (st : locals) (ib : nat * Batch) : M locals :=
  let (val_batch_num, val_inputs) := ib in
  b <- read "inputs" (inputs st) ;;
  emit (EvForward false (claims b) (evidences b)) ;;
  let y_pred := forward false (model st) (claims b) (evidences b) in
  let y := labels b in
  let predictions := predict y_pred in
  accuracy <- lift (batch_accuracy y predictions) ;;
  let running_accuracy := fadd (val_running_accuracy st) accuracy in
  l <- read "loss" (loss st) ;;
  let running_loss := fadd (val_running_loss st) l in
  r <- lift (py_mod (Z.of_nat val_batch_num) F) ;;
  sums <-
    (if bool_decide (r = 0) && bool_decide (0 < val_batch_num)%nat then
       per_epoch <- lift (int_truediv (dataset_len val_dl) B) ;;
       progress <- lift (int_div_float (Z.of_nat val_batch_num) per_epoch) ;;
       mean_loss <- lift (fdiv_int running_loss F) ;;
       mean_accuracy <- lift (fdiv_int running_accuracy F) ;;
       emit (EvValReport
               {| rp_epoch := epoch; rp_progress := progress;
                  rp_loss := mean_loss; rp_accuracy := mean_accuracy;
                  rp_recall := recall_score y predictions |}) ;;
       ret (zero, zero)
     else ret (running_loss, running_accuracy)) ;;
  ret {| model := model st;
         best_accuracy := best_accuracy st;
         inputs := inputs st; loss := loss st;
         mean_train_acc := mean_train_acc st;
         train_running_loss := train_running_loss st;
         train_running_accuracy := train_running_accuracy st;
         val_running_loss := sums.1;
         val_running_accuracy := sums.2 |}.

(** Lines 53-59. *)
Definition save_checkpoint (state : checkpoint) (is_best : bool)
    (filename_accuracy : pyfloat) : M unit :=
  if is_best then
    emit (EvPrint "=> Saving a new best") ;;
    emit (EvSave state filename_accuracy)
  else
    emit (EvPrint "=> Validation Accuracy did not improve").

(** Lines 213-218: the end of an epoch. *)
Definition epoch_end (epoch : nat) (train_dl : DataLoader) (st : locals) : M locals :=
  train_acc <- lift (fdiv_int (mean_train_acc st) (loader_len train_dl)) ;;
  emit (EvMeanAccuracy epoch train_acc) ;;
  let best := py_max train_acc (best_accuracy st) in
  let is_best := fge train_acc best in
  save_checkpoint
    {| ck_epoch := epoch; ck_state_dict := model st; ck_best_accuracy := best |}
    is_best train_acc ;;
  ret {| model := model st;
         best_accuracy := best;
         inputs := inputs st; loss := loss st;
         mean_train_acc := mean_train_acc st;
         train_running_loss := train_running_loss st;
         train_running_accuracy := train_running_accuracy st;
         val_running_loss := val_running_loss st;
         val_running_accuracy := val_running_accuracy st |}.

Definition train_loop (F : Z) (epoch : nat) (train_dl : DataLoader) (B : Z)
    (st : locals) : M locals :=
  for_each (train_body F epoch train_dl B) (enumerate (yielded train_dl epoch)) st.

Definition val_loop (F : Z) (epoch : nat) (val_dl : DataLoader) (B : Z)
    (st : locals) : M locals :=
  for_each (val_body F epoch val_dl B) (enumerate (yielded val_dl epoch)) st.

(** Lines 109-218: the body of [for epoch in range(NUM_EPOCHS)]. *)
Definition epoch_body (F : Z) (train_dl val_dl : DataLoader) (B : Z)
    (st : locals) (epoch : nat) : M locals :=
  st1 <- train_loop F epoch train_dl B (epoch_start st) ;;
  emit (EvPrint "Running validation...") ;;
  st2 <- val_loop F epoch val_dl B st1 ;;
  epoch_end epoch train_dl st2.

(** [train[:k]] and [train[k:]] for [0 <= k]. *)
Definition slice_to {X} (k : Z) (l : list X) : list X := take (Z.to_nat k) l.
Definition slice_from {X} (k : Z) (l : list X) : list X := drop (Z.to_nat k) l.

Definition init_locals : locals :=
  {| model := init_model; best_accuracy := zero;
     inputs := None; loss := None;
     mean_train_acc := zero;
     train_running_loss := zero; train_running_accuracy := zero;
     val_running_loss := zero; val_running_accuracy := zero |}.

(** Lines 61-218.  [DataLoader] refuses a batch size below 1.  Device
    placement and its message, the [Logger], the experiment tracker and the
    directory part of the checkpoint file name have no influence on what
    follows and are left out; the file name is kept as the accuracy it
    ends with.  The final locals are returned for inspection. *)
Definition run (args : Args) (train : list PyObj)
    (sparse : option PyObj) (claims_dict : PyObj) : M locals :=
  let BATCH_SIZE := batch_size args in
  let DATA_BATCH_SIZE := data_batch_size args in
  let NUM_EPOCHS := epochs args in
  emit (EvPrint "Created model...") ;;
  emit (EvPrint "Created dataset...") ;;
  size <- lift (train_size (Z.of_nat (length train))) ;;
  (if bool_decide (BATCH_SIZE <= 0) then throw ValueError else ret tt) ;;
  let train_dl :=
    wiki_loader (slice_to size train) claims_dict DATA_BATCH_SIZE sparse BATCH_SIZE in
  let val_dl :=
    wiki_loader (slice_from size train) claims_dict DATA_BATCH_SIZE sparse BATCH_SIZE in
  F <- lift (OUTPUT_FREQ (dataset_len train_dl) BATCH_SIZE) ;;
  emit (EvPrint "Training...") ;;
  for_each (epoch_body F train_dl val_dl BATCH_SIZE)
    (seq 0 (Z.to_nat NUM_EPOCHS)) init_locals.

(** *** [__main__] *)

(** [os.path.join(a, b)] on POSIX paths. *)
Fixpoint ends_with_slash (s : string) : bool :=
  match s with
  | EmptyString => false
  | String c EmptyString => bool_decide (c = "/"%char)
  | String _ s' => ends_with_slash s'
  end.

Definition path_join (a b : string) : string :=
  if String.prefix "/" b then b
  else if bool_decide (a = EmptyString) || ends_with_slash a then a +:+ b
  else a +:+ "/" +:+ b.

(** [joblib.load(fname)] against the files present on disk. *)
Definition joblib_load (fs : gmap string PyObj) (fname : string) : M PyObj :=
  match fs !! fname with
  | Some o => ret o
  | None => throw (FileNotFoundError fname)
  end.

(** The pickled training set seen as a Python list. *)
Variable as_list : PyObj -> list PyObj.

(** Lines 220-242.  At module level the name [claims_dict] is unbound, so
    the bare [except] branch always loads it. *)
Definition main (fs : gmap string PyObj) (args : Args) : M locals :=
  emit (EvPrint ("Loading " +:+ data args)) ;;
  train <- joblib_load fs (path_join (data args) "train.pkl") ;;
  sparse <-
    (if sparse_evidences args then
       emit (EvPrint "Loading sparse evidences...") ;;
       o <- joblib_load fs (path_join (data args) "evidence.pkl") ;;
       ret (Some o)
     else ret None) ;;
  emit (EvPrint "Loading claims data...") ;;
  claims_dict <- joblib_load fs "new_claims_dict.pkl" ;;
  emit (EvSetStartMethod "fork") ;;
  run args (as_list train) sparse claims_dict.

(** *** Reading the event log *)

(** The [print] of line 214, one per completed epoch. *)
Definition mean_accuracies (tr : list event) : list (nat * pyfloat) :=
  omap (fun ev => match ev with
                  | EvMeanAccuracy e a => Some (e, a)
                  | _ => None
                  end) tr.

(** The mean training accuracies, epoch by epoch. *)
Definition accuracies (tr : list event) : list pyfloat :=
  (mean_accuracies tr).*2.

(** The checkpoints handed to [torch.save], in program order. *)
Definition saved (tr : list event) : list checkpoint :=
  omap (fun ev => match ev with
                  | EvSave ck _ => Some ck
                  | _ => None
                  end) tr.

(** A checkpoint was written at the end of epoch [e]. *)
Definition written_at (tr : list event) (e : nat) : Prop :=
  exists ck, ck ∈ saved tr /\ ck_epoch ck = e.

Definition train_reports (tr : list event) : list report :=
  omap (fun ev => match ev with EvTrainReport r => Some r | _ => None end) tr.

Definition val_reports (tr : list event) : list report :=
  omap (fun ev => match ev with EvValReport r => Some r | _ => None end) tr.

Definition Qcmax (a b : Qc) : Qc := if decide (a <= b)%Qc then b else a.

(** The largest of the accuracies seen so far, starting from the initial
    [best_accuracy = 0.0]. *)
Definition max_accuracy (accs : list pyfloat) : Qc :=
  foldl (fun m a => match a with Fin q => Qcmax q m | NaN => m end) Qc0 accs.

(** Order on floats: false as soon as a NaN is involved. *)
Definition fle (x y : pyfloat) : Prop :=
  match x, y with
  | Fin a, Fin b => (a <= b)%Qc
  | _, _ => False
  end.

(** The batch bound to [inputs] once the training loop has run over [bs]:
    the last one, or what [inputs] held before when [bs] is empty. *)
Definition last_seen (st : locals) (bs : list Batch) : option Batch :=
  match last bs with
  | Some b => Some b
  | None => inputs st
  end.

(** Number of batches added to a running sum since it was last cleared,
    once [k] batches (indices [0] to [k-1]) have been processed: the
    sums are cleared at every index that is a positive multiple of [F]. *)
Definition window_count (F k : Z) : Z :=
  if bool_decide (k <= F) then k else (k - 1) mod F.

(** *** Predicates on events, batches and logs *)

(** *** What each phase can emit *)

Definition train_event (ev : event) : Prop :=
  match ev with
  | EvForward true _ _ | EvTrainReport _ => True
  | _ => False
  end.

Definition val_event (seen : option Batch) (ev : event) : Prop :=
  match ev with
  | EvForward false c e =>
      exists b, seen = Some b /\ c = claims b /\ e = evidences b
  | EvValReport _ => True
  | _ => False
  end.

(** *** The end of an epoch *)

Definition quiet (ev : event) : Prop :=
  match ev with
  | EvMeanAccuracy _ _ | EvSave _ _ => False
  | _ => True
  end.

(** The events of [save_checkpoint] as called on line 218. *)
Definition epoch_end_events (epoch : nat) (m : Model) (train_acc best : pyfloat)
    : list event :=
  EvMeanAccuracy epoch train_acc ::
  (if fge train_acc best then
     [EvPrint "=> Saving a new best";
      EvSave {| ck_epoch := epoch; ck_state_dict := m;
                ck_best_accuracy := best |} train_acc]
   else [EvPrint "=> Validation Accuracy did not improve"]).

(** The accumulated accuracy stays a number as long as no batch is
    empty. *)
Definition nonempty_batches (bs : list Batch) : Prop :=
  Forall (fun b => labels b <> []) bs.

(** What holds of the accuracies printed and the checkpoints saved once
    [k] epochs are complete, [best] being the current [best_accuracy]. *)
Record log_inv (k : nat) (ma : list (nat * pyfloat)) (sv : list checkpoint)
    (best : pyfloat) : Prop := {
  inv_epochs : ma.*1 = seq 0 k;
  inv_best : best = Fin (max_accuracy ma.*2);
  inv_saved :
    Forall (fun ck =>
      (ck_epoch ck < k)%nat /\
      exists q, ck_best_accuracy ck = Fin q /\
                ma.*2 !! ck_epoch ck = Some (Fin q) /\
                (max_accuracy (take (ck_epoch ck) ma.*2) <= q)%Qc /\
                (q <= max_accuracy ma.*2)%Qc) sv;
  inv_written :
    forall e q, ma.*2 !! e = Some (Fin q) ->
      (max_accuracy (take e ma.*2) <= q)%Qc ->
      exists ck, ck ∈ sv /\ ck_epoch ck = e;
  inv_finite : Forall (fun a => exists q, a = Fin q) ma.*2;
  inv_sorted : StronglySorted fle (ck_best_accuracy <$> sv)
}.

(** The log of [m] satisfies the invariant for some number of complete
    epochs. *)
Definition log_ok {A} (m : M A) : Prop :=
  exists k best, log_inv k (mean_accuracies m.1) (saved m.1) best.

(** Every collated batch carries at least one label. *)
Definition loader_batches_nonempty : Prop :=
  forall xs cd dbs sp bs e,
    nonempty_batches (yielded (wiki_loader xs cd dbs sp bs) e).

Definition forward_ok (seen : option Batch) (ev : event) : Prop :=
  match ev with
  | EvForward false c e => exists b, seen = Some b /\ c = claims b /\ e = evidences b
  | _ => True
  end.

(** *** Further readings of the loops and of the log *)

(** The model after one optimizer step per batch, in the order given. *)
Definition steps (m : Model) (bs : list Batch) : Model :=
  foldl (fun m b => optimizer_step m (claims b) (evidences b) (labels b)) m bs.

(** The forward passes of a log, in program order. *)
Definition forwards (tr : list event) : list (bool * Claims * Evidences) :=
  omap (fun ev => match ev with
                  | EvForward t c e => Some (t, c, e)
                  | _ => None
                  end) tr.

(** Number of positive multiples of [F] below [k]: the periodic reports
    made while the batch indices [0] to [k-1] are processed. *)
Definition reports_before (F k : Z) : Z := (Z.max k 1 - 1) / F.

(** [len(train_dataloader)] is the number of batches the loader yields. *)
Definition loader_len_exact : Prop :=
  forall xs cd dbs sp bs e,
    loader_len (wiki_loader xs cd dbs sp bs)
    = Z.of_nat (length (yielded (wiki_loader xs cd dbs sp bs) e)).

(** The batches of the training loader are well shaped: in either mode
    the model answers one logit per label. *)
Definition well_sized (dl : DataLoader) : Prop :=
  forall e t m b, b ∈ yielded dl e ->
    length (forward t m (claims b) (evidences b)) = length (labels b).

(** ** Properties *)

(** *** Arithmetic of the two sizes *)

Lemma py_int_floor (q : Qc) :
  (0 <= q)%Qc -> py_int (Fin q) = Ok (Qfloor (this q)).
Proof.
  intros H. unfold py_int. f_equal.
  destruct q as [[n d] Hc]; simpl in *.
  unfold Qcle, Qle in H; simpl in H.
  rewrite Z.quot_div_nonneg; lia.
Qed.

Lemma Qc_of_Z_pos_ne0 (p : positive) : Qc_of_Z (Z.pos p) <> Qc0.
Proof. intros E. apply (f_equal this) in E. discriminate E. Qed.

Lemma Qc_of_Z_ne0 (n : Z) : n <> 0 -> Qc_of_Z n <> Qc0.
Proof. intros Hn E. apply Z2Qc_inj in E. contradiction. Qed.

Lemma output_freq_value (L : Z) (p : positive) :
  (this (Qc_of_Z L / Qc_of_Z (Z.pos p) * Q2Qc (2 # 100))%Qc
   == inject_Z L / inject_Z (Z.pos p) * (2 # 100))%Q.
Proof. simpl. rewrite !Qred_correct. reflexivity. Qed.

Lemma output_freq_ratio (L : Z) (p : positive) :
  (inject_Z L / inject_Z (Z.pos p) * (2 # 100) == L # (50 * p))%Q.
Proof. unfold Qeq, Qdiv, Qmult, Qinv, inject_Z; simpl. lia. Qed.

Lemma OUTPUT_FREQ_floor (L B : Z) :
  0 <= L -> 1 <= B ->
  OUTPUT_FREQ L B = Ok (Qfloor (inject_Z L / inject_Z B * (2 # 100))).
Proof.
  intros HL HB. destruct B as [|p|p]; try lia.
  unfold OUTPUT_FREQ, int_truediv, ftruediv, float_of_int.
  destruct (decide _) as [E|_]; [by apply Qc_of_Z_pos_ne0 in E|].
  unfold lit_0_02, fmul. rewrite py_int_floor.
  - f_equal. apply Qfloor_comp, output_freq_value.
  - unfold Qcle. rewrite output_freq_value, output_freq_ratio.
    unfold Qle; simpl. lia.
Qed.

Lemma OUTPUT_FREQ_div (L B : Z) :
  0 <= L -> 1 <= B -> OUTPUT_FREQ L B = Ok (L / (50 * B)).
Proof.
  intros HL HB. rewrite OUTPUT_FREQ_floor by done.
  destruct B as [|p|p]; try lia.
  f_equal. rewrite (Qfloor_comp _ _ (output_freq_ratio L p)). reflexivity.
Qed.

Lemma train_size_value (N : Z) :
  (this (Qc_of_Z N * Q2Qc (8 # 10))%Qc == inject_Z N * (8 # 10))%Q.
Proof. simpl. rewrite !Qred_correct. reflexivity. Qed.

Lemma train_size_floor (N : Z) :
  0 <= N -> train_size N = Ok (Qfloor (inject_Z N * (8 # 10))).
Proof.
  intros HN. unfold train_size, lit_0_8, fmul, float_of_int.
  rewrite py_int_floor.
  - f_equal. apply Qfloor_comp, train_size_value.
  - unfold Qcle. rewrite train_size_value. unfold Qle; simpl. lia.
Qed.

Lemma train_size_div (N : Z) : 0 <= N -> train_size N = Ok (4 * N / 5).
Proof.
  intros HN. rewrite train_size_floor by done. f_equal.
  assert (E : (inject_Z N * (8 # 10) == (4 * N) # 5)%Q).
  { unfold Qeq, Qmult, inject_Z; simpl. lia. }
  rewrite (Qfloor_comp _ _ E). reflexivity.
Qed.

(** C7.  The slices [train[:train_size]] and [train[train_size:]] have
    [floor(N * 0.8)] and [N - floor(N * 0.8)] elements, [N] together. *)
Theorem split_sizes_sum (train : list PyObj) :
  let N := Z.of_nat (length train) in
  exists k : Z,
    train_size N = Ok k /\
    k = Qfloor (inject_Z N * (8 # 10)) /\
    Z.of_nat (length (slice_to k train)) = k /\
    Z.of_nat (length (slice_from k train)) = N - k /\
    Z.of_nat (length (slice_to k train)) + Z.of_nat (length (slice_from k train)) = N.
Proof.
  intros N. exists (4 * N / 5).
  assert (HN : 0 <= N) by (unfold N; lia).
  assert (Hk : 0 <= 4 * N / 5 <= N).
  { split; [apply Z.div_pos; lia|].
    apply Z.div_le_upper_bound; lia. }
  split; [by apply train_size_div|]. split.
  { pose proof (train_size_floor N HN) as E1.
    rewrite train_size_div in E1 by done. by injection E1. }
  unfold slice_to, slice_from. rewrite length_take, length_drop.
  fold N. unfold N in *. lia.
Qed.

(** *** Per-batch accuracy *)

Lemma length_eq_mask (a b : list pyfloat) :
  length a = length b -> length (eq_mask a b) = length a.
Proof. intros H. unfold eq_mask. rewrite length_zip_with. lia. Qed.

Lemma matches_le_length (a b : list pyfloat) : (matches a b <= length a)%nat.
Proof.
  unfold matches.
  etrans; [apply length_filter|]. rewrite length_zip. lia.
Qed.

Lemma matches_cons (x y : pyfloat) (a b : list pyfloat) :
  matches (x :: a) (y :: b) =
  ((if feqb x y then 1 else 0) + matches a b)%nat.
Proof.
  unfold matches. simpl. rewrite filter_cons. simpl.
  destruct (feqb x y); simpl.
  - destruct (decide (true = true)); [done|congruence].
  - destruct (decide (false = true)); [congruence|done].
Qed.

Lemma Qc_plus_0 (q : Qc) : (q + Qc_of_Z 0)%Qc = q.
Proof. rewrite Z2Qc_inj_0. ring. Qed.

Lemma matches_nil_l (b : list pyfloat) : matches [] b = 0%nat.
Proof. done. Qed.

Lemma matches_nil_r (a : list pyfloat) : matches a [] = 0%nat.
Proof. by destruct a. Qed.

Lemma eq_mask_cons (x y : pyfloat) (a b : list pyfloat) :
  eq_mask (x :: a) (y :: b)
  = (if feqb x y then Fin Qc1 else Fin Qc0) :: eq_mask a b.
Proof. done. Qed.

Lemma foldl_fadd_eq_mask (a b : list pyfloat) (acc : Qc) :
  foldl fadd (Fin acc) (eq_mask a b)
  = Fin (acc + Qc_of_Z (Z.of_nat (matches a b)))%Qc.
Proof.
  revert b acc. induction a as [|x a IH]; intros b acc.
  { rewrite matches_nil_l. simpl. by rewrite Qc_plus_0. }
  destruct b as [|y b].
  { rewrite matches_nil_r. simpl. by rewrite Qc_plus_0. }
  rewrite matches_cons, eq_mask_cons. simpl foldl.
  destruct (feqb x y); simpl fadd; rewrite IH; f_equal.
  - rewrite Nat2Z.inj_add, Z2Qc_inj_add. unfold Qc1.
    change (Z.of_nat 1) with 1. ring.
  - rewrite Nat.add_0_l. unfold Qc0. rewrite Z2Qc_inj_0. ring.
Qed.

Lemma tensor_sum_eq_mask (a b : list pyfloat) :
  tensor_sum (eq_mask a b) = Fin (Qc_of_Z (Z.of_nat (matches a b))).
Proof.
  unfold tensor_sum. rewrite foldl_fadd_eq_mask. f_equal.
  unfold Qc0. rewrite Z2Qc_inj_0. ring.
Qed.

Lemma Qc_ratio_bounds (m n : Z) :
  0 <= m <= n -> 0 < n ->
  (0 <= Qc_of_Z m / Qc_of_Z n)%Qc /\ (Qc_of_Z m / Qc_of_Z n <= 1)%Qc.
Proof.
  intros Hm Hn.
  assert (Hpos : (0 < Qc_of_Z n)%Qc).
  { apply (proj1 (Z2Qc_inj_lt 0 n)) in Hn. by rewrite Z2Qc_inj_0 in Hn. }
  assert (Hinv : (0 < / Qc_of_Z n)%Qc) by by apply Qcinv_pos.
  split.
  - apply Qcmult_nonneg_nonneg; [|by apply Qclt_le_weak].
    destruct Hm as [Hm _]. apply (proj1 (Z2Qc_inj_le 0 m)) in Hm.
    by rewrite Z2Qc_inj_0 in Hm.
  - apply (Qcmult_le_mono_pos_r _ _ (Qc_of_Z n)); [done|].
    unfold Qcdiv. rewrite <- Qcmult_assoc, Qcmult_inv_l, Qcmult_1_r, Qcmult_1_l.
    + apply (proj1 (Z2Qc_inj_le m n)). lia.
    + intros E. rewrite E in Hpos. by apply Qclt_not_eq in Hpos.
Qed.

Lemma tensor_mean_fin (t : list pyfloat) (s : Qc) :
  t <> [] -> tensor_sum t = Fin s ->
  tensor_mean t = Fin (s / Qc_of_Z (Z.of_nat (length t))).
Proof.
  intros Hne Hs. destruct t as [|x t]; [done|].
  unfold tensor_mean. by rewrite Hs.
Qed.

Lemma batch_accuracy_fraction (y p : list pyfloat) :
  y <> [] -> length p = length y ->
  batch_accuracy y p
  = Ok (Fin (Qc_of_Z (Z.of_nat (matches y p)) / Qc_of_Z (Z.of_nat (length y)))).
Proof.
  intros Hne Hlen. unfold batch_accuracy, tensor_eq.
  destruct (decide _) as [_|Hn]; [|congruence].
  rewrite (tensor_mean_fin (eq_mask y p) (Qc_of_Z (Z.of_nat (matches y p)))).
  - by rewrite length_eq_mask.
  - intros E. apply (f_equal length) in E.
    rewrite length_eq_mask in E by done. by destruct y.
  - apply tensor_sum_eq_mask.
Qed.

(** *** The event monad *)

Lemma bind_lift_ok {A B} (o : outcome A) (a : A) (k : A -> M B) :
  o = Ok a -> bind (lift o) k = k a.
Proof. intros ->. unfold bind, lift. simpl. by destruct (k a). Qed.

Lemma bind_lift_raise {A B} (o : outcome A) (e : exn) (k : A -> M B) :
  o = Raise e -> bind (lift o) k = ([], Raise e).
Proof. by intros ->. Qed.

Lemma bind_ret {A B} (a : A) (k : A -> M B) : bind (ret a) k = k a.
Proof. unfold bind, ret. simpl. by destruct (k a). Qed.

Lemma bind_emit {B} (ev : event) (k : unit -> M B) :
  bind (emit ev) k = (ev :: (k tt).1, (k tt).2).
Proof. unfold bind, emit. by destruct (k tt). Qed.

Lemma bind_ok_inv {A B} (m : M A) (k : A -> M B) (tr : list event) (b : B) :
  bind m k = (tr, Ok b) ->
  exists l1 a l2, m = (l1, Ok a) /\ k a = (l2, Ok b) /\ tr = l1 ++ l2.
Proof.
  unfold bind. destruct m as [l1 [a|e]]; [|done].
  destruct (k a) as [l2 r] eqn:E. intros [= <- ->]. eauto 6.
Qed.

Lemma bind_raise_inv {A B} (m : M A) (k : A -> M B) (tr : list event) (e : exn) :
  bind m k = (tr, Raise e) ->
  m = (tr, Raise e) \/
  exists l1 a l2, m = (l1, Ok a) /\ k a = (l2, Raise e) /\ tr = l1 ++ l2.
Proof.
  unfold bind. destruct m as [l1 [a|e']].
  - destruct (k a) as [l2 r] eqn:E. intros [= <- ->]. right. eauto 6.
  - intros [= <- <-]. by left.
Qed.

Lemma bind_assoc {A B C} (m : M A) (k : A -> M B) (h : B -> M C) :
  bind (bind m k) h = bind m (fun a => bind (k a) h).
Proof.
  unfold bind. destruct m as [l1 [a|e]]; [|done].
  destruct (k a) as [l2 [b|e]]; [|done].
  destruct (h b) as [l3 r]. by rewrite app_assoc.
Qed.

Lemma bind_ext {A B} (m : M A) (k k' : A -> M B) :
  (forall a, k a = k' a) -> bind m k = bind m k'.
Proof.
  intros H. unfold bind. destruct m as [l1 [a|e]]; [|done]. by rewrite H.
Qed.

Lemma for_each_cons {X S} (body : S -> X -> M S) (x : X) (xs : list X) (st : S) :
  for_each body (x :: xs) st = bind (body st x) (for_each body xs).
Proof. done. Qed.

Lemma for_each_app {X S} (body : S -> X -> M S) (xs ys : list X) (st : S) :
  for_each body (xs ++ ys) st
  = bind (for_each body xs st) (for_each body ys).
Proof.
  revert st. induction xs as [|x xs IH]; intros st.
  - simpl app. change (for_each body [] st) with (ret (A:=S) st).
    by rewrite bind_ret.
  - rewrite <- app_comm_cons, !for_each_cons, bind_assoc.
    apply bind_ext. intros a. apply IH.
Qed.

(** C3, amended.  [OUTPUT_FREQ] is [floor(len(train_dataset)/BATCH_SIZE *
    0.02)]; it is strictly positive exactly when the training set has at
    least 50 times [BATCH_SIZE] examples; [run] computes it once, before
    the first epoch, and every epoch of the run uses that value. *)
Theorem OUTPUT_FREQ_positive_iff (L B : Z) :
  0 <= L -> 1 <= B ->
  exists F : Z,
    OUTPUT_FREQ L B = Ok F /\
    F = Qfloor (inject_Z L / inject_Z B * (2 # 100)) /\
    (0 < F <-> 50 * B <= L) /\
    forall args train sparse cd size,
      batch_size args = B ->
      train_size (Z.of_nat (length train)) = Ok size ->
      let train_dl :=
        wiki_loader (slice_to size train) cd (data_batch_size args) sparse B in
      let val_dl :=
        wiki_loader (slice_from size train) cd (data_batch_size args) sparse B in
      dataset_len train_dl = L ->
      let loop :=
        for_each (epoch_body F train_dl val_dl B)
          (seq 0 (Z.to_nat (epochs args))) init_locals in
      run args train sparse cd
      = ([EvPrint "Created model..."; EvPrint "Created dataset...";
          EvPrint "Training..."] ++ loop.1, loop.2).
Proof.
  intros HL HB. exists (L / (50 * B)).
  split; [by apply OUTPUT_FREQ_div|]. split.
  { pose proof (OUTPUT_FREQ_floor L B HL HB) as E1.
    rewrite OUTPUT_FREQ_div in E1 by done. by injection E1. }
  split.
  { split; intros H.
    - destruct (Z_lt_le_dec L (50 * B)) as [Hlt|]; [|done].
      rewrite Z.div_small in H by lia. lia.
    - apply Z.div_str_pos. lia. }
  intros args train sparse cd size HBa Hsize train_dl val_dl Hlen loop.
  unfold run. rewrite HBa, Hsize.
  unfold bind at 1. unfold emit at 1. unfold bind at 1. unfold emit at 1.
  rewrite (bind_lift_ok _ size) by done.
  rewrite bool_decide_false by lia. rewrite bind_ret.
  fold train_dl val_dl. rewrite Hlen, OUTPUT_FREQ_div by done.
  rewrite (bind_lift_ok _ (L / (50 * B))) by done.
  unfold bind, emit. fold loop. by destruct loop.
Qed.

(** *** One iteration of the training loop *)

Lemma criterion_ok_length (y_pred y : list pyfloat) (l : pyfloat) :
  criterion y_pred y = Ok l -> length y_pred = length y.
Proof. unfold criterion. by destruct (decide _). Qed.

Lemma length_predict (y_pred : list pyfloat) :
  length (predict y_pred) = length y_pred.
Proof. unfold predict. by rewrite length_map. Qed.

Lemma py_mod_ok (a b r : Z) : py_mod a b = Ok r -> b <> 0 /\ r = a mod b.
Proof. unfold py_mod. destruct (decide _); [done|]. by intros [= <-]. Qed.

(** What a successful iteration did, read off its result. *)
Lemma train_body_ok_inv F epoch dl B st i b tr st' :
  train_body F epoch dl B st (i, b) = (tr, Ok st') ->
  let y_pred := forward true (model st) (claims b) (evidences b) in
  exists l acc,
    criterion y_pred (labels b) = Ok l /\
    batch_accuracy (labels b) (predict y_pred) = Ok acc /\
    F <> 0 /\
    model st' = optimizer_step (model st) (claims b) (evidences b) (labels b) /\
    best_accuracy st' = best_accuracy st /\
    inputs st' = Some b /\ loss st' = Some l /\
    mean_train_acc st' = fadd (mean_train_acc st) acc /\
    val_running_loss st' = val_running_loss st /\
    val_running_accuracy st' = val_running_accuracy st /\
    if bool_decide (Z.of_nat i mod F = 0) && bool_decide (0 < i)%nat then
      exists progress mean_loss mean_accuracy,
        fdiv_int (fadd (train_running_loss st) l) F = Ok mean_loss /\
        fdiv_int (fadd (train_running_accuracy st) acc) F = Ok mean_accuracy /\
        tr = [EvForward true (claims b) (evidences b);
              EvTrainReport {| rp_epoch := epoch; rp_progress := progress;
                               rp_loss := mean_loss; rp_accuracy := mean_accuracy;
                               rp_recall := recall_score (labels b) (predict y_pred) |}] /\
        train_running_loss st' = zero /\
        train_running_accuracy st' = zero
    else
      tr = [EvForward true (claims b) (evidences b)] /\
      train_running_loss st' = fadd (train_running_loss st) l /\
      train_running_accuracy st' = fadd (train_running_accuracy st) acc.
Proof.
  intros H y_pred. unfold train_body, bind, lift, emit, ret in H. simpl in H.
  fold y_pred in H.
  repeat case_match; simplify_eq; simpl;
    match goal with
    | Hm : py_mod _ _ = Ok _ |- _ => apply py_mod_ok in Hm as [HF ->]
    end;
    eexists _, _; repeat (split; [done|]);
    try congruence; try done.
  by eexists _, _, _.
Qed.

(** *** One iteration of the validation loop *)

Lemma val_body_ok_inv F epoch dl B st i val_inputs tr st' :
  val_body F epoch dl B st (i, val_inputs) = (tr, Ok st') ->
  exists b l acc,
    let y_pred := forward false (model st) (claims b) (evidences b) in
    inputs st = Some b /\ loss st = Some l /\
    batch_accuracy (labels b) (predict y_pred) = Ok acc /\
    F <> 0 /\
    model st' = model st /\
    best_accuracy st' = best_accuracy st /\
    inputs st' = inputs st /\ loss st' = loss st /\
    mean_train_acc st' = mean_train_acc st /\
    train_running_loss st' = train_running_loss st /\
    train_running_accuracy st' = train_running_accuracy st /\
    if bool_decide (Z.of_nat i mod F = 0) && bool_decide (0 < i)%nat then
      exists progress mean_loss mean_accuracy,
        fdiv_int (fadd (val_running_loss st) l) F = Ok mean_loss /\
        fdiv_int (fadd (val_running_accuracy st) acc) F = Ok mean_accuracy /\
        tr = [EvForward false (claims b) (evidences b);
              EvValReport {| rp_epoch := epoch; rp_progress := progress;
                             rp_loss := mean_loss; rp_accuracy := mean_accuracy;
                             rp_recall := recall_score (labels b) (predict y_pred) |}] /\
        val_running_loss st' = zero /\
        val_running_accuracy st' = zero
    else
      tr = [EvForward false (claims b) (evidences b)] /\
      val_running_loss st' = fadd (val_running_loss st) l /\
      val_running_accuracy st' = fadd (val_running_accuracy st) acc.
Proof.
  intros H. unfold val_body, bind, lift, emit, ret, read, throw in H.
  destruct (inputs st) as [b|] eqn:Hin; [|done].
  destruct (loss st) as [l|] eqn:Hl; simpl in H;
    repeat case_match; simplify_eq; simpl;
    match goal with
    | Hm : py_mod _ _ = Ok _ |- _ => apply py_mod_ok in Hm as [HF ->]
    end;
    eexists _, _, _; repeat (split; [done|]);
    try congruence; try done.
  by eexists _, _, _.
Qed.

(** The loop header binds [val_inputs]; nothing reads it. *)
Lemma val_body_ignores_batch F epoch dl B st i (v1 v2 : Batch) :
  val_body F epoch dl B st (i, v1) = val_body F epoch dl B st (i, v2).
Proof. reflexivity. Qed.

Lemma bind_trace_Forall {A B} (P : event -> Prop) (m : M A) (k : A -> M B) :
  Forall P m.1 ->
  (forall l a, m = (l, Ok a) -> Forall P (k a).1) ->
  Forall P (bind m k).1.
Proof.
  intros Hm Hk. unfold bind. destruct m as [l [a|e]]; [|done].
  specialize (Hk l a eq_refl). destruct (k a) as [l' r].
  apply Forall_app. by split.
Qed.

Lemma for_each_trace_Forall {X S} (P : event -> Prop) (I : S -> Prop)
    (body : S -> X -> M S) (xs : list X) (st : S) :
  (forall st x, I st -> Forall P (body st x).1) ->
  (forall st x tr st', I st -> body st x = (tr, Ok st') -> I st') ->
  I st -> Forall P (for_each body xs st).1.
Proof.
  intros Htr Hst. revert st. induction xs as [|x xs IH]; intros st HI.
  - constructor.
  - rewrite for_each_cons. apply bind_trace_Forall; [by apply Htr|].
    intros l a E. apply IH. by eapply Hst.
Qed.

Lemma for_each_ok_inv {X S} (I : S -> Prop)
    (body : S -> X -> M S) (xs : list X) (st : S) (tr : list event) (st' : S) :
  (forall st x tr st', I st -> body st x = (tr, Ok st') -> I st') ->
  I st -> for_each body xs st = (tr, Ok st') -> I st'.
Proof.
  intros Hst. revert st tr. induction xs as [|x xs IH]; intros st tr HI H.
  - by injection H as <- <-.
  - rewrite for_each_cons in H.
    apply bind_ok_inv in H as (l1 & a & l2 & E1 & E2 & ->).
    eapply IH; [|done]. by eapply Hst.
Qed.

Lemma train_body_trace F epoch dl B st ib :
  Forall train_event (train_body F epoch dl B st ib).1.
Proof.
  destruct ib as [i b].
  unfold train_body, bind, lift, emit, ret. simpl.
  repeat case_match; simplify_eq; simpl; repeat constructor.
Qed.

Lemma val_body_trace F epoch dl B st ib :
  Forall (val_event (inputs st)) (val_body F epoch dl B st ib).1.
Proof.
  destruct ib as [i b].
  unfold val_body, bind, lift, emit, ret, read, throw.
  destruct (inputs st) as [b0|] eqn:Hin; [|by constructor].
  destruct (loss st) as [l|] eqn:Hl; simpl;
    repeat case_match; simplify_eq; simpl; repeat constructor;
    try (by simpl; eauto).
Qed.

Lemma train_loop_trace F epoch dl B st :
  Forall train_event (train_loop F epoch dl B st).1.
Proof.
  unfold train_loop.
  apply (for_each_trace_Forall _ (fun _ => True)); [|done..].
  intros. apply train_body_trace.
Qed.

Lemma val_loop_trace F epoch dl B st :
  Forall (val_event (inputs st)) (val_loop F epoch dl B st).1.
Proof.
  unfold val_loop.
  apply (for_each_trace_Forall _ (fun s => inputs s = inputs st)); [| |done].
  - intros s x <-. apply val_body_trace.
  - intros s [i x] tr s' <- E.
    apply val_body_ok_inv in E as (b & l & acc & E).
    simpl in E. by destruct E as (_&_&_&_&_&_&->&_).
Qed.

Lemma quiet_log (tr : list event) :
  Forall quiet tr -> mean_accuracies tr = [] /\ saved tr = [].
Proof.
  induction 1 as [|ev tr Hev _ [IH1 IH2]]; [done|].
  split; destruct ev; simpl in Hev; try done; first [exact IH1|exact IH2].
Qed.

Lemma train_event_quiet ev : train_event ev -> quiet ev.
Proof. by destruct ev as [| [] | | | | |]. Qed.

Lemma val_event_quiet seen ev : val_event seen ev -> quiet ev.
Proof. by destruct ev as [| [] | | | | |]. Qed.

Lemma mean_accuracies_app tr1 tr2 :
  mean_accuracies (tr1 ++ tr2) = mean_accuracies tr1 ++ mean_accuracies tr2.
Proof. apply omap_app. Qed.

Lemma saved_app tr1 tr2 : saved (tr1 ++ tr2) = saved tr1 ++ saved tr2.
Proof. apply omap_app. Qed.

Lemma accuracies_app tr1 tr2 :
  accuracies (tr1 ++ tr2) = accuracies tr1 ++ accuracies tr2.
Proof. unfold accuracies. by rewrite mean_accuracies_app, fmap_app. Qed.

Lemma epoch_end_ok_inv epoch dl st tr st' :
  epoch_end epoch dl st = (tr, Ok st') ->
  exists train_acc,
    fdiv_int (mean_train_acc st) (loader_len dl) = Ok train_acc /\
    best_accuracy st' = py_max train_acc (best_accuracy st) /\
    model st' = model st /\
    tr = epoch_end_events epoch (model st) train_acc
           (py_max train_acc (best_accuracy st)).
Proof.
  intros H. unfold epoch_end, save_checkpoint, bind, lift, emit, ret in H.
  simpl in H.
  repeat case_match; simplify_eq; simpl; eexists; repeat (split; [done|]);
    unfold epoch_end_events;
    match goal with Hb : fge _ _ = _ |- _ => by rewrite Hb end.
Qed.

Lemma epoch_end_raise_inv epoch dl st tr e :
  epoch_end epoch dl st = (tr, Raise e) -> tr = [].
Proof.
  intros H. unfold epoch_end, save_checkpoint, bind, lift, emit, ret in H.
  simpl in H. repeat case_match; simplify_eq; done.
Qed.

Lemma fdiv_int_fin (q : Qc) (n : Z) (r : pyfloat) :
  fdiv_int (Fin q) n = Ok r -> n <> 0 /\ r = Fin (q / Qc_of_Z n).
Proof.
  unfold fdiv_int, ftruediv, float_of_int.
  destruct (decide _) as [|Hn]; [done|]. intros [= <-]. split; [|done].
  intros ->. by apply Hn.
Qed.

Lemma batch_accuracy_fin (y p : list pyfloat) (acc : pyfloat) :
  y <> [] -> length p = length y -> batch_accuracy y p = Ok acc ->
  exists q, acc = Fin q.
Proof.
  intros Hne Hlen. rewrite batch_accuracy_fraction by done.
  intros [= <-]. eauto.
Qed.

Lemma Forall_enumerate_from {X} (P : X -> Prop) (i : nat) (xs : list X) :
  Forall P xs -> Forall (fun ix => P ix.2) (enumerate_from i xs).
Proof.
  intros H. revert i. induction H; intros i; simpl; constructor; auto.
Qed.

Lemma for_each_ok_inv_Forall {X S} (I : S -> Prop) (P : X -> Prop)
    (body : S -> X -> M S) (xs : list X) (st : S) (tr : list event) (st' : S) :
  (forall st x tr st', P x -> I st -> body st x = (tr, Ok st') -> I st') ->
  Forall P xs -> I st -> for_each body xs st = (tr, Ok st') -> I st'.
Proof.
  intros Hst HP. revert st tr. induction HP as [|x xs Hx _ IH]; intros st tr HI H.
  - by injection H as <- <-.
  - rewrite for_each_cons in H.
    apply bind_ok_inv in H as (l1 & a & l2 & E1 & E2 & ->).
    eapply IH; [|done]. by eapply Hst.
Qed.

Lemma train_loop_ok_inv F epoch dl B st tr st' :
  nonempty_batches (yielded dl epoch) ->
  train_loop F epoch dl B st = (tr, Ok st') ->
  (exists q, mean_train_acc st = Fin q) ->
  best_accuracy st' = best_accuracy st /\ exists q, mean_train_acc st' = Fin q.
Proof.
  intros Hne H Hfin. unfold train_loop in H.
  apply (for_each_ok_inv_Forall
           (fun s => best_accuracy s = best_accuracy st /\
                     exists q, mean_train_acc s = Fin q)
           (fun ib : nat * Batch => labels ib.2 <> []))
    in H; [done| |by apply (Forall_enumerate_from (fun b => labels b <> []))
                 |by split].
  clear. intros s [i b] tr s' Hb [Hbest [q Hq]] E. simpl in Hb.
  apply train_body_ok_inv in E
    as (l & acc & Hc & Ha & _ & _ & -> & _ & _ & -> & _).
  split; [done|].
  apply batch_accuracy_fin in Ha as [qa ->]; [|done|].
  - rewrite Hq. simpl. eauto.
  - rewrite length_predict. by eapply criterion_ok_length.
Qed.

Lemma val_loop_ok_inv F epoch dl B st tr st' :
  val_loop F epoch dl B st = (tr, Ok st') ->
  best_accuracy st' = best_accuracy st /\
  mean_train_acc st' = mean_train_acc st /\
  model st' = model st.
Proof.
  intros H. unfold val_loop in H.
  apply (for_each_ok_inv
           (fun s => best_accuracy s = best_accuracy st /\
                     mean_train_acc s = mean_train_acc st /\
                     model s = model st)) in H; [done| |done].
  clear. intros s [i b] tr s' (<- & <- & <-) E.
  apply val_body_ok_inv in E as (b0 & l & acc & E). simpl in E.
  by destruct E as (_&_&_&_&->&->&_&_&->&_).
Qed.

Lemma epoch_end_events_quiet_prefix epoch m a best :
  mean_accuracies (epoch_end_events epoch m a best) = [(epoch, a)] /\
  saved (epoch_end_events epoch m a best)
  = if fge a best
    then [{| ck_epoch := epoch; ck_state_dict := m; ck_best_accuracy := best |}]
    else [].
Proof. unfold epoch_end_events. by destruct (fge a best). Qed.

Lemma epoch_body_ok_inv F train_dl val_dl B st e tr st' :
  nonempty_batches (yielded train_dl e) ->
  epoch_body F train_dl val_dl B st e = (tr, Ok st') ->
  exists tr0 q m,
    tr = tr0 ++ epoch_end_events e m (Fin q) (py_max (Fin q) (best_accuracy st)) /\
    Forall quiet tr0 /\
    best_accuracy st' = py_max (Fin q) (best_accuracy st).
Proof.
  intros Hne H. unfold epoch_body in H.
  apply bind_ok_inv in H as (l1 & st1 & l2 & E1 & H & ->).
  apply bind_ok_inv in H as (l3 & [] & l4 & E3 & H & ->).
  apply bind_ok_inv in H as (l5 & st2 & l6 & E5 & H & ->).
  injection E3 as <-.
  pose proof (train_loop_trace F e train_dl B (epoch_start st)) as T1.
  pose proof (val_loop_trace F e val_dl B st1) as T2.
  rewrite E1 in T1. rewrite E5 in T2. simpl in T1, T2.
  apply train_loop_ok_inv in E1 as [Hb1 [q1 Hq1]]; [|done|by eexists].
  apply val_loop_ok_inv in E5 as (Hb2 & Hm2 & _).
  apply epoch_end_ok_inv in H as (a & Ha & Hb3 & _ & ->).
  rewrite Hm2, Hq1 in Ha. apply fdiv_int_fin in Ha as [_ ->].
  rewrite Hb2, Hb1 in Hb3. rewrite Hb2, Hb1. simpl in Hb3.
  eexists (l1 ++ [_] ++ l5), _, _. split; [by rewrite <- !app_assoc|].
  split; [|done]. repeat apply Forall_app_2.
  - eapply Forall_impl; [exact T1|]. apply train_event_quiet.
  - by repeat constructor.
  - eapply Forall_impl; [exact T2|]. apply val_event_quiet.
Qed.

Lemma epoch_body_raise_inv F train_dl val_dl B st e tr x :
  epoch_body F train_dl val_dl B st e = (tr, Raise x) -> Forall quiet tr.
Proof.
  intros H. unfold epoch_body in H.
  pose proof (train_loop_trace F e train_dl B (epoch_start st)) as T1.
  apply bind_raise_inv in H as [H|(l1 & st1 & l2 & E1 & H & ->)].
  { rewrite H in T1. eapply Forall_impl; [exact T1|]. apply train_event_quiet. }
  rewrite E1 in T1. simpl in T1.
  apply Forall_app_2.
  { eapply Forall_impl; [exact T1|]. apply train_event_quiet. }
  apply bind_raise_inv in H as [H|(l3 & [] & l4 & E3 & H & ->)]; [done|].
  injection E3 as <-. apply Forall_app_2; [by repeat constructor|].
  pose proof (val_loop_trace F e val_dl B st1) as T2.
  apply bind_raise_inv in H as [H|(l5 & st2 & l6 & E5 & H & ->)].
  { rewrite H in T2. eapply Forall_impl; [exact T2|]. apply val_event_quiet. }
  rewrite E5 in T2. simpl in T2. apply Forall_app_2.
  { eapply Forall_impl; [exact T2|]. apply val_event_quiet. }
  apply epoch_end_raise_inv in H as ->. constructor.
Qed.

(** *** Maxima *)

Lemma Qcmax_l (a b : Qc) : (a <= Qcmax a b)%Qc.
Proof.
  unfold Qcmax. destruct (decide _); [done|apply Qcle_refl].
Qed.

Lemma Qcmax_r (a b : Qc) : (b <= Qcmax a b)%Qc.
Proof.
  unfold Qcmax. destruct (decide _) as [|Hn]; [apply Qcle_refl|].
  apply Qclt_le_weak. by apply Qcnot_le_lt.
Qed.

Lemma Qcmax_lub (a b c : Qc) : (a <= c)%Qc -> (b <= c)%Qc -> (Qcmax a b <= c)%Qc.
Proof. unfold Qcmax. by destruct (decide _). Qed.

Lemma Qcmax_le_iff (a b c : Qc) :
  (Qcmax a b <= c)%Qc <-> (a <= c)%Qc /\ (b <= c)%Qc.
Proof.
  split.
  - intros H. split; (eapply Qcle_trans; [|exact H]);
      [apply Qcmax_l|apply Qcmax_r].
  - intros [??]. by apply Qcmax_lub.
Qed.

Lemma Qcmax_absorb (a b : Qc) : (b <= a)%Qc -> Qcmax a b = a.
Proof.
  intros H. unfold Qcmax. destruct (decide _); [|done].
  by apply Qcle_antisym.
Qed.

Lemma py_max_fin (q m : Qc) : py_max (Fin q) (Fin m) = Fin (Qcmax q m).
Proof.
  unfold py_max, Qcmax. simpl. destruct (decide (q <= m)%Qc) as [Hle|Hn].
  - destruct (bool_decide_reflect (q < m)%Qc) as [|Hnlt]; [done|].
    f_equal. apply Qcle_antisym; [done|]. by apply Qcnot_lt_le.
  - rewrite bool_decide_false; [done|].
    intros Hlt. by apply Hn, Qclt_le_weak.
Qed.

Lemma fge_max_iff (q m : Qc) :
  fge (Fin q) (Fin (Qcmax q m)) = true <-> (m <= q)%Qc.
Proof.
  simpl. rewrite bool_decide_eq_true, Qcmax_le_iff.
  split; [by intros [_ ?]|]. intros ?. split; [apply Qcle_refl|done].
Qed.

Lemma max_accuracy_snoc (accs : list pyfloat) (q : Qc) :
  max_accuracy (accs ++ [Fin q]) = Qcmax q (max_accuracy accs).
Proof. unfold max_accuracy. by rewrite foldl_app. Qed.

Lemma max_accuracy_le_iff (accs : list pyfloat) (c : Qc) :
  (max_accuracy accs <= c)%Qc
  <-> (Qc0 <= c)%Qc /\ forall q, Fin q ∈ accs -> (q <= c)%Qc.
Proof.
  induction accs as [|a accs IH] using rev_ind.
  - split; [|by intros [? _]]. intros H. split; [done|].
    intros q Hq. by apply elem_of_nil in Hq.
  - destruct a as [q|].
    + rewrite max_accuracy_snoc, Qcmax_le_iff, IH. split.
      * intros (Hq & H0 & Hall). split; [done|]. intros q' Hq'.
        apply elem_of_app in Hq' as [Hq'|Hq']; [by apply Hall|].
        apply list_elem_of_singleton in Hq'. by injection Hq' as ->.
      * intros (H0 & Hall). split; [|split; [done|]].
        -- apply Hall. apply elem_of_app. right. by apply list_elem_of_singleton.
        -- intros q' Hq'. apply Hall. apply elem_of_app. by left.
    + unfold max_accuracy in *. rewrite foldl_app. simpl. rewrite IH.
      split; intros (H0 & Hall); (split; [done|]); intros q' Hq'.
      * apply elem_of_app in Hq' as [Hq'|Hq']; [by apply Hall|].
        by apply list_elem_of_singleton in Hq'.
      * apply Hall. apply elem_of_app. by left.
Qed.

Lemma max_accuracy_prefix (accs more : list pyfloat) :
  (max_accuracy accs <= max_accuracy (accs ++ more))%Qc.
Proof.
  apply max_accuracy_le_iff. 
  pose proof (proj1 (max_accuracy_le_iff (accs ++ more) _) (Qcle_refl _))
    as [H0 Hall].
  split; [done|]. intros q Hq. apply Hall, elem_of_app. by left.
Qed.

(** *** The log of a run, epoch after epoch *)

Lemma log_inv_init : log_inv 0 [] [] zero.
Proof.
  split; try done; by constructor.
Qed.

Lemma log_inv_length k ma sv best :
  log_inv k ma sv best -> length ma.*2 = k.
Proof.
  intros [H _ _ _ _ _]. apply (f_equal length) in H.
  rewrite length_fmap, length_seq in H. by rewrite length_fmap.
Qed.

Lemma log_inv_step k ma sv best e_model q :
  log_inv k ma sv best ->
  let best' := py_max (Fin q) best in
  log_inv (S k) (ma ++ [(k, Fin q)])
    (sv ++ if fge (Fin q) best'
           then [{| ck_epoch := k; ck_state_dict := e_model;
                    ck_best_accuracy := best' |}]
           else [])
    best'.
Proof.
  intros Hinv best'.
  pose proof (log_inv_length _ _ _ _ Hinv) as Hlen.
  destruct Hinv as [Hep Hbest Hsv Hwr Hfin Hso].
  set (accs := ma.*2) in *. set (m := max_accuracy accs) in *.
  assert (Hb' : best' = Fin (Qcmax q m)).
  { unfold best'. rewrite Hbest. apply py_max_fin. }
  assert (Haccs : (ma ++ [(k, Fin q)]).*2 = accs ++ [Fin q]).
  { by rewrite fmap_app. }
  assert (Hmax : max_accuracy (accs ++ [Fin q]) = Qcmax q m).
  { apply max_accuracy_snoc. }
  split.
  - by rewrite fmap_app, Hep, seq_S.
  - by rewrite Haccs, Hmax.
  - rewrite Haccs, Hmax. apply Forall_app. split.
    + eapply Forall_impl; [exact Hsv|]. simpl.
      intros ck (Hlt & q0 & E1 & E2 & E3 & E4). split; [lia|].
      exists q0. split; [done|]. split; [|split].
      * by rewrite lookup_app_l by lia.
      * by rewrite take_app_le by lia.
      * eapply Qcle_trans; [exact E4|]. apply Qcmax_r.
    + rewrite Hb'. destruct (fge (Fin q) (Fin (Qcmax q m))) eqn:Hge;
        [|constructor].
      apply fge_max_iff in Hge. apply Forall_singleton. simpl.
      split; [lia|]. exists q. rewrite Qcmax_absorb by done.
      split; [done|]. split; [|split].
      * rewrite lookup_app_r by lia. by rewrite Hlen, Nat.sub_diag.
      * by rewrite take_app_length' by done.
      * apply Qcle_refl.
  - rewrite Haccs. intros e q0 E Hle.
    destruct (decide (e < k)%nat) as [Hlt|Hge].
    + rewrite lookup_app_l in E by lia. rewrite take_app_le in Hle by lia.
      destruct (Hwr e q0 E Hle) as (ck & Hck & Hck').
      exists ck. split; [|done]. apply elem_of_app. by left.
    + assert (e = k) as ->.
      { apply lookup_lt_Some in E. rewrite length_app in E. simpl in E. lia. }
      rewrite lookup_app_r in E by lia.
      rewrite Hlen, Nat.sub_diag in E. injection E as <-.
      rewrite take_app_length' in Hle by done. fold m in Hle.
      rewrite Hb'. rewrite (proj2 (fge_max_iff q m) Hle).
      eexists. split;
        [apply elem_of_app; right; by apply list_elem_of_singleton|done].
  - rewrite Haccs. apply Forall_app. split; [done|]. by repeat econstructor.
  - rewrite fmap_app. apply StronglySorted_app_2; [|done|].
    2: { destruct (fge _ _); by repeat constructor. }
    intros x1 x2 Hx1 Hx2.
    apply list_elem_of_fmap in Hx1 as (ck & -> & Hck).
    rewrite Forall_forall in Hsv.
    destruct (Hsv ck Hck) as (_ & q0 & -> & _ & _ & Hq0).
    rewrite Hb' in Hx2.
    destruct (fge _ _); [|by apply elem_of_nil in Hx2].
    apply list_elem_of_singleton in Hx2 as ->. simpl.
    eapply Qcle_trans; [exact Hq0|]. apply Qcmax_r.
Qed.

Lemma epochs_log_inv F train_dl val_dl B :
  (forall e, nonempty_batches (yielded train_dl e)) ->
  forall n k tr0 st tr res,
    log_inv k (mean_accuracies tr0) (saved tr0) (best_accuracy st) ->
    for_each (epoch_body F train_dl val_dl B) (seq k n) st = (tr, res) ->
    exists k' best,
      log_inv k' (mean_accuracies (tr0 ++ tr)) (saved (tr0 ++ tr)) best.
Proof.
  intros Hne n. induction n as [|n IH]; intros k tr0 st tr res Hinv H.
  - injection H as <- <-. rewrite app_nil_r. eauto.
  - change (seq k (S n)) with (k :: seq (S k) n) in H.
    rewrite for_each_cons in H.
    destruct (epoch_body F train_dl val_dl B st k) as [l1 [st1|x]] eqn:E.
    + unfold bind in H.
      destruct (for_each _ (seq (S k) n) st1) as [l2 r] eqn:E2.
      injection H as <- <-.
      apply epoch_body_ok_inv in E as (l0 & q & m & -> & Hq & Hb); [|done].
      rewrite app_assoc. eapply IH; [|exact E2].
      destruct (quiet_log _ Hq) as [Hq1 Hq2].
      destruct (epoch_end_events_quiet_prefix k m (Fin q)
                  (py_max (Fin q) (best_accuracy st))) as [He1 He2].
      rewrite !mean_accuracies_app, !saved_app, Hq1, Hq2, He1, He2, Hb.
      simpl. by apply log_inv_step.
    + injection H as <- <-. apply epoch_body_raise_inv in E.
      destruct (quiet_log _ E) as [Hq1 Hq2].
      rewrite mean_accuracies_app, saved_app, Hq1, Hq2, !app_nil_r. eauto.
Qed.

Lemma log_ok_nil {A} (o : outcome A) : log_ok (A:=A) ([], o).
Proof. exists 0%nat, zero. apply log_inv_init. Qed.

Lemma log_ok_emit {A} (ev : event) (k : unit -> M A) :
  quiet ev -> log_ok (k tt) -> log_ok (bind (emit ev) k).
Proof.
  intros Hq (n & best & H). exists n, best. rewrite bind_emit.
  change ((ev :: (k tt).1, (k tt).2).1) with ([ev] ++ (k tt).1).
  destruct (quiet_log [ev]) as [E1 E2]; [by repeat constructor|].
  by rewrite mean_accuracies_app, saved_app, E1, E2.
Qed.

Lemma log_ok_lift {A B} (o : outcome A) (k : A -> M B) :
  (forall a, log_ok (k a)) -> log_ok (bind (lift o) k).
Proof.
  intros H. destruct o as [a|x].
  - by rewrite (bind_lift_ok _ a).
  - rewrite (bind_lift_raise _ x) by done. apply log_ok_nil.
Qed.

Lemma run_log_ok args train sparse cd :
  loader_batches_nonempty -> log_ok (run args train sparse cd).
Proof.
  intros Hne. unfold run.
  do 2 (apply log_ok_emit; [done|]).
  apply log_ok_lift. intros size.
  destruct (bool_decide (batch_size args <= 0)); [apply log_ok_nil|].
  rewrite bind_ret. apply log_ok_lift. intros F.
  apply log_ok_emit; [done|].
  destruct (for_each _ _ _) as [tr res] eqn:E.
  eapply (epochs_log_inv _ _ _ _ (Hne _ _ _ _ _) _ _ []) in E; [done|].
  apply log_inv_init.
Qed.

(** *** Checkpoint policy *)

(** C1.  In every run, at the end of every epoch that completes, a
    checkpoint is written if and only if the epoch's mean training accuracy
    is at least the maximum of the mean training accuracies of the earlier
    epochs and of the initial best 0.0. *)
Theorem checkpoint_written_iff args train sparse cd :
  loader_batches_nonempty ->
  let tr := (run args train sparse cd).1 in
  forall e e' acc,
    mean_accuracies tr !! e = Some (e', acc) ->
    e' = e /\
    exists q, acc = Fin q /\
      (written_at tr e <-> (max_accuracy (take e (accuracies tr)) <= q)%Qc).
Proof.
  intros Hne tr e e' acc Hacc.
  destruct (run_log_ok args train sparse cd Hne) as (k & best & Hinv).
  fold tr in Hinv. destruct Hinv as [Hep _ Hsv Hwr Hfin _].
  fold (accuracies tr) in Hsv, Hwr, Hfin.
  assert (He : e' = e).
  { apply (f_equal (fmap fst)) in Hacc. rewrite <- list_lookup_fmap, Hep in Hacc.
    simpl in Hacc. apply lookup_seq in Hacc. lia. }
  assert (Ha : accuracies tr !! e = Some acc).
  { unfold accuracies. by rewrite list_lookup_fmap, Hacc. }
  split; [done|].
  rewrite Forall_forall in Hfin.
  destruct (Hfin acc) as [q ->]; [by eapply list_elem_of_lookup_2|].
  exists q. split; [done|]. split.
  - intros (ck & Hck & <-). rewrite Forall_forall in Hsv.
    destruct (Hsv ck Hck) as (_ & q0 & _ & E & Hle & _).
    rewrite Ha in E. by injection E as ->.
  - intros Hle. by apply (Hwr e q).
Qed.

(** C2.  The [best_accuracy] stored in the checkpoints of a run never
    decreases from one checkpoint to the next; a stored value is the mean
    training accuracy of its own epoch, which was at least the best before
    it; and the end of an epoch changes [best_accuracy] only when the
    epoch's mean training accuracy is at least the previous best. *)
Theorem persisted_best_monotone args train sparse cd :
  loader_batches_nonempty ->
  let tr := (run args train sparse cd).1 in
  StronglySorted fle (ck_best_accuracy <$> saved tr) /\
  (forall ck, ck ∈ saved tr ->
     exists q, ck_best_accuracy ck = Fin q /\
       accuracies tr !! ck_epoch ck = Some (Fin q) /\
       (max_accuracy (take (ck_epoch ck) (accuracies tr)) <= q)%Qc) /\
  (forall epoch dl st tr' st' (s m : Qc),
     mean_train_acc st = Fin s -> best_accuracy st = Fin m ->
     epoch_end epoch dl st = (tr', Ok st') ->
     exists a m',
       fdiv_int (mean_train_acc st) (loader_len dl) = Ok (Fin a) /\
       best_accuracy st' = Fin m' /\ (m <= m')%Qc /\
       (m' <> m -> (m <= a)%Qc /\ m' = a)).
Proof.
  intros Hne tr.
  destruct (run_log_ok args train sparse cd Hne) as (k & best & Hinv).
  fold tr in Hinv. destruct Hinv as [_ _ Hsv _ _ Hso].
  fold (accuracies tr) in Hsv.
  split; [done|]. split.
  - intros ck Hck. rewrite Forall_forall in Hsv.
    destruct (Hsv ck Hck) as (_ & q & E1 & E2 & E3 & _). eauto.
  - intros epoch dl st tr' st' s m Hs Hm H.
    apply epoch_end_ok_inv in H as (a & Ha & Hb & _).
    rewrite Hs in Ha. pose proof Ha as Ha'.
    apply fdiv_int_fin in Ha' as [_ ->].
    rewrite Hm, py_max_fin in Hb.
    eexists _, _. split; [by rewrite Hs|]. split; [done|].
    split; [apply Qcmax_r|].
    intros Hneq. unfold Qcmax in *.
    destruct (decide _) as [|Hn]; [done|]. split; [|done].
    apply Qclt_le_weak. by apply Qcnot_le_lt.
Qed.

(** *** Per-batch accuracy in the training loop *)

(** C6.  For a training batch with at least one label, the accuracy added
    to the running sums lies in [0,1] and is the number of positions where
    the label equals the rounded sigmoid of the logit, divided by the
    number of positions. *)
Theorem train_accuracy_fraction F epoch dl B st i b tr st' :
  labels b <> [] ->
  train_body F epoch dl B st (i, b) = (tr, Ok st') ->
  let y_pred := forward true (model st) (claims b) (evidences b) in
  let predictions := map (fun x => fround (sigmoid x)) y_pred in
  exists a : Qc,
    batch_accuracy (labels b) predictions = Ok (Fin a) /\
    mean_train_acc st' = fadd (mean_train_acc st) (Fin a) /\
    a = (Qc_of_Z (Z.of_nat (matches (labels b) predictions))
         / Qc_of_Z (Z.of_nat (length (labels b))))%Qc /\
    (0 <= a)%Qc /\ (a <= 1)%Qc.
Proof.
  intros Hne H y_pred predictions.
  apply train_body_ok_inv in H
    as (l & acc & Hc & Ha & _ & _ & _ & _ & _ & Hm & _).
  fold y_pred in Hc, Ha. change (predict y_pred) with predictions in Ha.
  assert (Hlen : length predictions = length (labels b)).
  { unfold predictions. rewrite length_map. by eapply criterion_ok_length. }
  rewrite batch_accuracy_fraction in Ha by done. injection Ha as <-.
  eexists. split; [by apply batch_accuracy_fraction|].
  split; [done|]. split; [done|].
  apply Qc_ratio_bounds.
  - pose proof (matches_le_length (labels b) predictions). lia.
  - destruct (labels b); simpl; [done|lia].
Qed.

(** *** The batch read by the validation loop *)

Lemma train_loop_from_inputs F epoch dl B bs :
  forall i st tr st',
    for_each (train_body F epoch dl B) (enumerate_from i bs) st = (tr, Ok st') ->
    inputs st' = last_seen st bs.
Proof.
  induction bs as [|b bs IH]; intros i st tr st' H.
  - by injection H as <- <-.
  - simpl enumerate_from in H. rewrite for_each_cons in H.
    apply bind_ok_inv in H as (l1 & st1 & l2 & E1 & E2 & ->).
    apply IH in E2. rewrite E2.
    apply train_body_ok_inv in E1 as (l & acc & _ & _ & _ & _ & _ & Hin & _).
    unfold last_seen. destruct bs as [|b' bs]; [by rewrite Hin|].
    change (last (b :: b' :: bs)) with (last (b' :: bs)).
    destruct (last (b' :: bs)) eqn:El; [done|]. by apply last_None in El.
Qed.

Lemma train_loop_inputs F epoch dl B st tr st' :
  train_loop F epoch dl B st = (tr, Ok st') ->
  inputs st' = last_seen st (yielded dl epoch).
Proof. apply train_loop_from_inputs. Qed.

Lemma val_body_dataset F epoch dl dl' B st i (v v' : Batch) :
  dataset_len dl = dataset_len dl' ->
  val_body F epoch dl B st (i, v) = val_body F epoch dl' B st (i, v').
Proof. intros E. unfold val_body. by rewrite E. Qed.

Lemma val_loop_from_length F epoch dl dl' B (vs vs' : list Batch) :
  dataset_len dl = dataset_len dl' -> length vs = length vs' ->
  forall i st,
    for_each (val_body F epoch dl B) (enumerate_from i vs) st
    = for_each (val_body F epoch dl' B) (enumerate_from i vs') st.
Proof.
  intros Hd. revert vs'.
  induction vs as [|v vs IH]; intros [|v' vs'] Hlen i st; try done.
  simpl enumerate_from. rewrite !for_each_cons.
  rewrite (val_body_dataset F epoch dl dl' B st i v v' Hd).
  apply bind_ext. intros s. apply IH. by injection Hlen.
Qed.

Lemma epoch_end_trace epoch dl st seen :
  Forall (forward_ok seen) (epoch_end epoch dl st).1.
Proof.
  unfold epoch_end, save_checkpoint, bind, lift, emit, ret. simpl.
  repeat case_match; simplify_eq; simpl; by repeat constructor.
Qed.

(** C4.  Within an epoch, every validation iteration feeds the model the
    batch last bound to [inputs] by the training loop, and the batches
    yielded by the validation loader have no influence on what the epoch
    computes and emits: two validation loaders over equally many examples
    that yield equally many batches give the same result. *)
Theorem validation_reads_train_inputs F train_dl val_dl val_dl' B st epoch :
  dataset_len val_dl = dataset_len val_dl' ->
  length (yielded val_dl epoch) = length (yielded val_dl' epoch) ->
  epoch_body F train_dl val_dl B st epoch
  = epoch_body F train_dl val_dl' B st epoch /\
  forall c e,
    EvForward false c e ∈ (epoch_body F train_dl val_dl B st epoch).1 ->
    exists b, last_seen (epoch_start st) (yielded train_dl epoch) = Some b /\
              c = claims b /\ e = evidences b.
Proof.
  intros Hd Hlen. split.
  - unfold epoch_body. apply bind_ext. intros st1.
    apply bind_ext. intros _. unfold val_loop, enumerate.
    by rewrite (val_loop_from_length F epoch val_dl val_dl' B _ _ Hd Hlen).
  - intros c e Hin.
    assert (Hall : Forall (forward_ok
                     (last_seen (epoch_start st) (yielded train_dl epoch)))
                     (epoch_body F train_dl val_dl B st epoch).1).
    { unfold epoch_body. apply bind_trace_Forall.
      { eapply Forall_impl; [apply train_loop_trace|].
        by intros [| [] | | | | |]. }
      intros l1 st1 E1. apply train_loop_inputs in E1. rewrite <- E1.
      apply bind_trace_Forall; [by repeat constructor|]. intros _ _ _.
      apply bind_trace_Forall.
      { eapply Forall_impl; [apply val_loop_trace|].
        by intros [| [] | | | | |]. }
      intros l2 st2 E2. apply epoch_end_trace. }
    rewrite Forall_forall in Hall. by apply (Hall _ Hin).
Qed.

(** *** Start-up *)

(** C8.  With [--sparse-evidences] set and no [evidence.pkl] under the
    [--data] path, [__main__] ends in a file-not-found error after at most
    the two "Loading" messages: the start method is not yet set, [run] is
    not entered, no batch is processed and no epoch ends. *)
Theorem missing_evidence_fails_at_startup fs args :
  sparse_evidences args = true ->
  fs !! path_join (data args) "evidence.pkl" = None ->
  exists tr p,
    main fs args = (tr, Raise (FileNotFoundError p)) /\
    (tr = [EvPrint ("Loading " +:+ data args)] /\
       p = path_join (data args) "train.pkl"
     \/ tr = [EvPrint ("Loading " +:+ data args);
              EvPrint "Loading sparse evidences..."] /\
       p = path_join (data args) "evidence.pkl") /\
    (EvSetStartMethod "fork" ∉ tr) /\
    (EvPrint "Created model..." ∉ tr) /\
    (forall t c e, EvForward t c e ∉ tr) /\
    mean_accuracies tr = [].
Proof.
  intros Hs Hf. unfold main, joblib_load, bind, emit, ret, throw.
  rewrite Hs, Hf.
  destruct (fs !! path_join (data args) "train.pkl") as [o|]; simpl;
    eexists _, _; (split; [done|]); (split; [first [by left|by right]|]);
    repeat split; try done; unfold not; intros;
    repeat match goal with
           | H : _ ∈ _ :: _ |- _ => apply elem_of_cons in H as [H|H]; [done|]
           | H : _ ∈ [] |- _ => by apply elem_of_nil in H
           end.
Qed.

(** *** Totality of the training loop *)

Lemma batch_accuracy_ok (y p : list pyfloat) :
  length p = length y -> exists acc, batch_accuracy y p = Ok acc.
Proof.
  intros H. unfold batch_accuracy, tensor_eq.
  destruct (decide _); [eauto|congruence].
Qed.

Lemma criterion_sized (y_pred y : list pyfloat) :
  length y_pred = length y -> criterion y_pred y = Ok (bce_with_logits y_pred y).
Proof. intros H. unfold criterion. by destruct (decide _). Qed.

(** With [OUTPUT_FREQ = 0] the iteration stops at the modulo of line 145,
    after the forward pass and before the optimizer step. *)
Lemma train_body_zero_freq epoch dl B st i b :
  length (forward true (model st) (claims b) (evidences b)) = length (labels b) ->
  train_body 0 epoch dl B st (i, b)
  = ([EvForward true (claims b) (evidences b)], Raise ZeroDivisionError).
Proof.
  intros Hlen. unfold train_body. rewrite bind_emit.
  rewrite (bind_lift_ok _ _ _ (criterion_sized _ _ Hlen)).
  destruct (batch_accuracy_ok (labels b)
              (predict (forward true (model st) (claims b) (evidences b))))
    as [acc Ha]; [by rewrite length_predict|].
  by rewrite (bind_lift_ok _ _ _ Ha).
Qed.

Lemma ftruediv_ok (x : pyfloat) (b : Qc) :
  b <> Qc0 -> exists r, ftruediv x (Fin b) = Ok r.
Proof.
  intros Hb. unfold ftruediv. destruct (decide _); [done|].
  destruct x; eauto.
Qed.

Lemma Qc_ratio_ne0 (L B : Z) :
  L <> 0 -> B <> 0 -> (Qc_of_Z L / Qc_of_Z B)%Qc <> Qc0.
Proof.
  intros HL HB E. unfold Qc0 in E. rewrite Z2Qc_inj_0 in E.
  assert (HB' : Qc_of_Z B <> 0%Qc).
  { rewrite <- Z2Qc_inj_0. by intros ?%Z2Qc_inj. }
  apply (f_equal (fun x => x * Qc_of_Z B)%Qc) in E.
  unfold Qcdiv in E.
  rewrite <- Qcmult_assoc, Qcmult_inv_l, Qcmult_1_r, Qcmult_0_l in E by done.
  rewrite <- Z2Qc_inj_0 in E. by apply Z2Qc_inj in E.
Qed.

Lemma train_body_total F epoch dl B st i b :
  F <> 0 -> B <> 0 -> dataset_len dl <> 0 ->
  length (forward true (model st) (claims b) (evidences b)) = length (labels b) ->
  exists tr st', train_body F epoch dl B st (i, b) = (tr, Ok st').
Proof.
  intros HF HB HL Hlen. unfold train_body. rewrite bind_emit.
  match goal with
  | |- exists _ _, (_ :: ?X.1, ?X.2) = _ =>
      cut (exists tr st', X = (tr, Ok st'));
      [intros (tr & st' & ->); simpl; eauto|]
  end.
  rewrite (bind_lift_ok _ _ _ (criterion_sized _ _ Hlen)).
  destruct (batch_accuracy_ok (labels b)
              (predict (forward true (model st) (claims b) (evidences b))))
    as [acc Ha]; [by rewrite length_predict|].
  rewrite (bind_lift_ok _ _ _ Ha).
  unfold py_mod. destruct (decide (F = 0)); [done|].
  rewrite (bind_lift_ok _ (Z.of_nat i mod F)) by done.
  destruct (_ && _).
  - unfold int_truediv, float_of_int, ftruediv at 1.
    destruct (decide _) as [E|_]; [by apply Z2Qc_inj in E|].
    rewrite (bind_lift_ok _ (Fin (Qc_of_Z (dataset_len dl) / Qc_of_Z B)))
      by done.
    destruct (ftruediv_ok (Fin (Qc_of_Z (Z.of_nat i)))
                (Qc_of_Z (dataset_len dl) / Qc_of_Z B)) as [p Hp];
      [by apply Qc_ratio_ne0|].
    unfold int_div_float, float_of_int. rewrite (bind_lift_ok _ p) by done.
    destruct (ftruediv_ok (fadd (train_running_loss st)
                (bce_with_logits (forward true (model st) (claims b) (evidences b))
                   (labels b))) (Qc_of_Z F)) as [ml Hml];
      [by apply Qc_of_Z_ne0|].
    destruct (ftruediv_ok (fadd (train_running_accuracy st) acc) (Qc_of_Z F))
      as [ma Hma]; [by apply Qc_of_Z_ne0|].
    unfold fdiv_int, float_of_int.
    rewrite (bind_lift_ok _ ml) by done. rewrite (bind_lift_ok _ ma) by done.
    unfold bind, emit, ret. simpl. eauto.
  - unfold bind, ret. simpl. eauto.
Qed.

Lemma train_loop_from_total F epoch dl B bs :
  F <> 0 -> B <> 0 -> dataset_len dl <> 0 ->
  (forall m b, b ∈ bs ->
     length (forward true m (claims b) (evidences b)) = length (labels b)) ->
  forall i st,
    exists tr st',
      for_each (train_body F epoch dl B) (enumerate_from i bs) st = (tr, Ok st').
Proof.
  intros HF HB HL. induction bs as [|b bs IH]; intros Hsz i st.
  - by eexists _, _.
  - simpl enumerate_from. rewrite for_each_cons.
    destruct (train_body_total F epoch dl B st i b) as (l1 & st1 & E1); try done.
    { apply Hsz. by left. }
    destruct (IH (fun m b' Hb' => Hsz m b' (list_elem_of_further _ _ _ Hb'))
                (S i) st1) as (l2 & st2 & E2).
    rewrite E1. unfold bind. rewrite E2. eauto.
Qed.

(** C9.  Below 50 times [BATCH_SIZE] training examples [OUTPUT_FREQ] is 0
    and the first training batch raises at the modulo, after its forward
    pass; from 50 times [BATCH_SIZE] examples on the training loop runs
    through. *)
Theorem small_training_set_raises L B :
  0 <= L -> 1 <= B ->
  exists F,
    OUTPUT_FREQ L B = Ok F /\
    (L < 50 * B -> F = 0) /\
    forall epoch dl st b bs,
      dataset_len dl = L ->
      yielded dl epoch = b :: bs ->
      (forall m b', b' ∈ b :: bs ->
         length (forward true m (claims b') (evidences b')) = length (labels b')) ->
      (L < 50 * B ->
         train_loop F epoch dl B st
         = ([EvForward true (claims b) (evidences b)], Raise ZeroDivisionError)) /\
      (50 * B <= L -> exists tr st', train_loop F epoch dl B st = (tr, Ok st')) /\
      (forall tr st', train_loop F epoch dl B st = (tr, Ok st') -> 50 * B <= L).
Proof.
  intros HL HB. exists (L / (50 * B)).
  split; [by apply OUTPUT_FREQ_div|].
  assert (Hsmall : L < 50 * B -> L / (50 * B) = 0).
  { intros H. apply Z.div_small. lia. }
  split; [done|].
  intros epoch dl st b bs Hd Hy Hsz.
  assert (Hraise : L < 50 * B ->
            train_loop (L / (50 * B)) epoch dl B st
            = ([EvForward true (claims b) (evidences b)], Raise ZeroDivisionError)).
  { intros H. rewrite Hsmall by done. unfold train_loop, enumerate.
    rewrite Hy. simpl enumerate_from. rewrite for_each_cons.
    rewrite train_body_zero_freq; [done|]. apply Hsz. by left. }
  split; [done|]. split.
  - intros H. unfold train_loop, enumerate. rewrite Hy.
    apply train_loop_from_total; try done; try lia.
    assert (0 < L / (50 * B)) by (apply Z.div_str_pos; lia). lia.
  - intros tr st' H. destruct (Z_lt_le_dec L (50 * B)) as [Hlt|]; [|done].
    rewrite Hraise in H by done. done.
Qed.

(** *** The loss reported by the validation loop *)

Lemma mod_pred (F i : Z) :
  0 < F -> 0 < i ->
  (i - 1) mod F = if decide (i mod F = 0) then F - 1 else i mod F - 1.
Proof.
  intros HF Hi. destruct (decide _) as [E|E].
  - symmetry. apply (Z.mod_unique_pos _ _ (i / F - 1)); [lia|].
    pose proof (Z.div_mod i F ltac:(lia)). lia.
  - symmetry. apply (Z.mod_unique_pos _ _ (i / F)).
    + pose proof (Z.mod_pos_bound i F HF). lia.
    + pose proof (Z.div_mod i F ltac:(lia)). lia.
Qed.

Lemma window_count_reset (F i : Z) :
  0 < F -> 0 < i -> i mod F = 0 -> window_count F (i + 1) = 0.
Proof.
  intros HF Hi Hm. unfold window_count.
  assert (F <= i).
  { destruct (Z_lt_le_dec i F) as [Hlt|]; [|done].
    rewrite Z.mod_small in Hm by lia. lia. }
  rewrite bool_decide_false by lia.
  by replace (i + 1 - 1) with i by lia.
Qed.

Lemma window_count_succ (F i : Z) :
  0 < F -> 0 <= i -> ~ (i mod F = 0 /\ 0 < i) ->
  window_count F (i + 1) = window_count F i + 1.
Proof.
  intros HF Hi Hc. unfold window_count.
  destruct (bool_decide_reflect (i + 1 <= F)) as [H1|H1].
  - by rewrite bool_decide_true by lia.
  - replace (i + 1 - 1) with i by lia.
    assert (Hm : i mod F <> 0) by (intros E; apply Hc; lia).
    destruct (bool_decide_reflect (i <= F)) as [H2|H2].
    + assert (i = F) as -> by lia. by rewrite Z.mod_same in Hm by lia.
    + rewrite mod_pred by lia. destruct (decide _); [done|lia].
Qed.

Lemma window_count_full (F i : Z) :
  0 < F -> F < i -> i mod F = 0 -> window_count F i = F - 1.
Proof.
  intros HF Hi Hm. unfold window_count.
  rewrite bool_decide_false by lia. rewrite mod_pred by lia.
  by destruct (decide _).
Qed.

Lemma val_reports_app tr1 tr2 :
  val_reports (tr1 ++ tr2) = val_reports tr1 ++ val_reports tr2.
Proof. apply omap_app. Qed.

Lemma Qc_window_mean (F : Z) (q : Qc) :
  0 < F -> ((Qc_of_Z (F - 1) * q + q) / Qc_of_Z F)%Qc = q.
Proof.
  intros HF.
  assert (HF' : Qc_of_Z F <> 0%Qc).
  { rewrite <- Z2Qc_inj_0. intros ?%Z2Qc_inj. lia. }
  rewrite Z2Qc_inj_sub, Z2Qc_inj_1. field. done.
Qed.

Lemma bool_cond_true (i : nat) (F : Z) :
  bool_decide (Z.of_nat i mod F = 0) && bool_decide (0 < i)%nat = true
  <-> Z.of_nat i mod F = 0 /\ 0 < Z.of_nat i.
Proof.
  rewrite andb_true_iff, !bool_decide_eq_true. lia.
Qed.

Lemma val_loop_from_loss F epoch dl B (q : Qc) (vs : list Batch) :
  0 < F ->
  forall i st tr st',
    loss st = Some (Fin q) ->
    val_running_loss st = Fin (Qc_of_Z (window_count F (Z.of_nat i)) * q) ->
    for_each (val_body F epoch dl B) (enumerate_from i vs) st = (tr, Ok st') ->
    loss st' = Some (Fin q) /\
    val_running_loss st'
    = Fin (Qc_of_Z (window_count F (Z.of_nat (i + length vs))) * q) /\
    Forall (fun r => rp_loss r = Fin q)
      (if bool_decide (F < Z.of_nat i) then val_reports tr
       else tail (val_reports tr)).
Proof.
  intros HF. induction vs as [|v vs IH]; intros i st tr st' Hl Hs H.
  - injection H as <- <-. rewrite Nat.add_0_r. split; [done|]. split; [done|].
    destruct (bool_decide _); constructor.
  - simpl enumerate_from in H. rewrite for_each_cons in H.
    apply bind_ok_inv in H as (l1 & st1 & l2 & E1 & E2 & ->).
    apply val_body_ok_inv in E1 as (b & l & acc & E1). simpl in E1.
    destruct E1 as (_ & Hl0 & _ & _ & _ & _ & _ & Hl1 & _ & _ & _ & Hc).
    rewrite Hl in Hl0. injection Hl0 as <-. rewrite Hl in Hl1.
    destruct (bool_decide _ && bool_decide _) eqn:Hb.
    + apply bool_cond_true in Hb as [Hm Hi].
      assert (HFi : F <= Z.of_nat i).
      { destruct (Z_lt_le_dec (Z.of_nat i) F) as [Hlt|]; [|done].
        rewrite Z.mod_small in Hm by lia. lia. }
      destruct Hc as (p & ml & ma & Hml & _ & -> & Hz & _).
      rewrite Hs in Hml. simpl in Hml. apply fdiv_int_fin in Hml as [_ ->].
      apply IH in E2; [|done|].
      2: { rewrite Hz, Nat2Z.inj_succ, <- Z.add_1_r, window_count_reset by done.
           unfold zero, Qc0. f_equal. rewrite Z2Qc_inj_0. ring. }
      destruct E2 as (E21 & E22 & E23).
      split; [done|]. split.
      { rewrite E22.
        by replace (S i + length vs)%nat with (i + length (v :: vs))%nat
          by (simpl; lia). }
      rewrite bool_decide_true in E23 by lia.
      change ([EvForward false (claims b) (evidences b); EvValReport ?r] ++ l2)
        with ([EvForward false (claims b) (evidences b)] ++ [EvValReport r] ++ l2).
      rewrite !val_reports_app. simpl.
      destruct (bool_decide_reflect (F < Z.of_nat i)) as [Hlt|Hge]; [|done].
      constructor; [|done]. simpl.
      rewrite window_count_full by done. f_equal. by apply Qc_window_mean.
    + destruct Hc as (-> & Hz & _).
      assert (Hnc : ~ (Z.of_nat i mod F = 0 /\ 0 < Z.of_nat i)).
      { rewrite <- bool_cond_true. by rewrite Hb. }
      apply IH in E2; [|done|].
      2: { rewrite Hz, Hs, Nat2Z.inj_succ, <- Z.add_1_r,
             window_count_succ by (done || lia).
           simpl. f_equal. rewrite Z2Qc_inj_add, Z2Qc_inj_1. ring. }
      destruct E2 as (E21 & E22 & E23).
      split; [done|]. split.
      { rewrite E22.
        by replace (S i + length vs)%nat with (i + length (v :: vs))%nat
          by (simpl; lia). }
      change ([EvForward false (claims b) (evidences b)] ++ l2)
        with (EvForward false (claims b) (evidences b) :: l2).
      change (val_reports (EvForward false (claims b) (evidences b) :: l2))
        with (val_reports l2).
      destruct (bool_decide_reflect (F < Z.of_nat i)) as [Hlt|Hge].
      * by rewrite bool_decide_true in E23 by lia.
      * destruct (bool_decide_reflect (F < Z.of_nat (S i))) as [Hlt'|]; [|done].
        assert (Z.of_nat i = F) as Hi by lia.
        exfalso. apply Hnc. rewrite Hi, Z.mod_same by lia. lia.
Qed.

Lemma enumerate_from_snoc {X} (i : nat) (xs : list X) (x : X) :
  enumerate_from i (xs ++ [x]) = enumerate_from i xs ++ [((i + length xs)%nat, x)].
Proof.
  revert i. induction xs as [|y xs IH]; intros i; simpl.
  - by rewrite Nat.add_0_r.
  - by rewrite IH, Nat.add_succ_comm.
Qed.

(** The value bound to [loss] when the training loop ends is the loss of
    its final batch, computed before that batch's optimizer step. *)
Lemma train_loop_leaves_loss F epoch dl B st bs b tr st' :
  yielded dl epoch = bs ++ [b] ->
  train_loop F epoch dl B st = (tr, Ok st') ->
  exists m,
    loss st'
    = Some (bce_with_logits (forward true m (claims b) (evidences b)) (labels b)).
Proof.
  intros Hy H. unfold train_loop, enumerate in H.
  rewrite Hy, enumerate_from_snoc, for_each_app in H.
  apply bind_ok_inv in H as (l1 & st1 & l2 & _ & H & _).
  rewrite for_each_cons in H.
  apply bind_ok_inv in H as (l3 & st2 & l4 & H & E & _).
  injection E as _ <-.
  apply train_body_ok_inv in H as (l & acc & Hc & _ & _ & _ & _ & _ & Hl & _).
  exists (model st1). rewrite Hl. f_equal.
  unfold criterion in Hc. destruct (decide _); [|done]. by injection Hc.
Qed.

(** C10, amended.  The validation loop computes no loss: [loss] keeps the
    value left by the final training batch, and every validation batch adds
    that value to [val_running_loss].  The sum is cleared after each
    periodic report, so after [k] validation batches it holds the stale
    loss once per batch since the last report, which is [k] times only
    while no report has been made ([k <= OUTPUT_FREQ]); every periodic
    report after the first one of the epoch shows exactly the stale loss. *)
Theorem validation_loss_is_stale F epoch dl B st tr st' (q : Qc) :
  0 < F ->
  loss st = Some (Fin q) ->
  val_running_loss st = zero ->
  val_loop F epoch dl B st = (tr, Ok st') ->
  let k := Z.of_nat (length (yielded dl epoch)) in
  loss st' = Some (Fin q) /\
  val_running_loss st' = Fin (Qc_of_Z (window_count F k) * q) /\
  (k <= F -> val_running_loss st' = Fin (Qc_of_Z k * q)) /\
  (forall j r, val_reports tr !! S j = Some r -> rp_loss r = Fin q) /\
  (forall F' e' d' B' s bs b t s',
     yielded d' e' = bs ++ [b] ->
     train_loop F' e' d' B' s = (t, Ok s') ->
     exists m,
       loss s'
       = Some (bce_with_logits (forward true m (claims b) (evidences b))
                 (labels b))).
Proof.
  intros HF Hl Hz H k. unfold val_loop, enumerate in H.
  apply (val_loop_from_loss F epoch dl B q _ HF 0%nat) in H; [|done|].
  2: { rewrite Hz. change (Z.of_nat 0) with 0. unfold window_count.
       rewrite bool_decide_true by lia. unfold zero, Qc0. f_equal.
       rewrite Z2Qc_inj_0. ring. }
  destruct H as (H1 & H2 & H3). simpl in H2. fold k in H2.
  split; [done|]. split; [done|]. split.
  { intros Hk. rewrite H2. unfold window_count.
    by rewrite bool_decide_true by done. }
  split.
  - rewrite bool_decide_false in H3 by lia.
    intros j r Hr. rewrite Forall_forall in H3. apply H3.
    destruct (val_reports tr) as [|r0 rs]; [done|].
    simpl in *. by eapply list_elem_of_lookup_2.
  - intros. by eapply train_loop_leaves_loss.
Qed.

(** *** Periodic training reports *)

Lemma train_reports_app tr1 tr2 :
  train_reports (tr1 ++ tr2) = train_reports tr1 ++ train_reports tr2.
Proof. apply omap_app. Qed.

(** A training iteration reports exactly at the batch indices that are
    positive multiples of [OUTPUT_FREQ]; the report shows the running sums
    divided by [OUTPUT_FREQ], and the sums are cleared right after. *)
Lemma train_report_cadence F epoch dl B st i b tr st' :
  train_body F epoch dl B st (i, b) = (tr, Ok st') ->
  let y_pred := forward true (model st) (claims b) (evidences b) in
  exists l acc,
    criterion y_pred (labels b) = Ok l /\
    batch_accuracy (labels b) (predict y_pred) = Ok acc /\
    ((Z.of_nat i mod F = 0 /\ 0 < Z.of_nat i) /\
     (exists r, train_reports tr = [r] /\
        fdiv_int (fadd (train_running_loss st) l) F = Ok (rp_loss r) /\
        fdiv_int (fadd (train_running_accuracy st) acc) F = Ok (rp_accuracy r) /\
        rp_recall r = recall_score (labels b) (predict y_pred)) /\
     train_running_loss st' = zero /\ train_running_accuracy st' = zero
     \/
     ~ (Z.of_nat i mod F = 0 /\ 0 < Z.of_nat i) /\
     train_reports tr = [] /\
     train_running_loss st' = fadd (train_running_loss st) l /\
     train_running_accuracy st' = fadd (train_running_accuracy st) acc).
Proof.
  intros H y_pred. apply train_body_ok_inv in H as (l & acc & Hc & Ha & H).
  fold y_pred in Hc, Ha, H. exists l, acc. split; [done|]. split; [done|].
  destruct H as (_ & _ & _ & _ & _ & _ & _ & _ & H).
  destruct (bool_decide _ && bool_decide _) eqn:Hb.
  - left. apply bool_cond_true in Hb. split; [done|].
    destruct H as (p & ml & ma & Hml & Hma & -> & Hz1 & Hz2).
    split; [|done]. eexists. split; [done|]. by simpl.
  - right. destruct H as (-> & H1 & H2).
    split; [|done]. rewrite <- bool_cond_true. by rewrite Hb.
Qed.

(** ** Further properties *)

(** *** What the two loops do to the locals *)

Lemma validation_frame_aux F epoch dl B st tr st' :
  val_loop F epoch dl B st = (tr, Ok st') ->
  model st' = model st /\
  best_accuracy st' = best_accuracy st /\
  mean_train_acc st' = mean_train_acc st.
Proof.
  intros H. apply val_loop_ok_inv in H as (? & ? & ?). by repeat split.
Qed.

(** X1.  The validation loop updates no parameter and leaves every variable of
    the training phase as it was: it only moves its own two sums. *)
Theorem validation_frame F epoch dl B st tr st' :
  val_loop F epoch dl B st = (tr, Ok st') ->
  model st' = model st /\
  best_accuracy st' = best_accuracy st /\
  inputs st' = inputs st /\
  loss st' = loss st /\
  mean_train_acc st' = mean_train_acc st /\
  train_running_loss st' = train_running_loss st /\
  train_running_accuracy st' = train_running_accuracy st.
Proof.
  intros H. unfold val_loop in H.
  apply (for_each_ok_inv
           (fun s => model s = model st /\
                     best_accuracy s = best_accuracy st /\
                     inputs s = inputs st /\
                     loss s = loss st /\
                     mean_train_acc s = mean_train_acc st /\
                     train_running_loss s = train_running_loss st /\
                     train_running_accuracy s = train_running_accuracy st))
    in H; [done| |done].
  clear. intros s [i b] tr s' (<- & <- & <- & <- & <- & <- & <-) E.
  apply val_body_ok_inv in E as (b0 & l & acc & E). simpl in E.
  by destruct E as (_&_&_&_&->&->&->&->&->&->&->&_).
Qed.

Lemma forwards_app tr1 tr2 : forwards (tr1 ++ tr2) = forwards tr1 ++ forwards tr2.
Proof. apply omap_app. Qed.

Lemma train_loop_from_steps F epoch dl B bs :
  forall i st tr st',
    for_each (train_body F epoch dl B) (enumerate_from i bs) st = (tr, Ok st') ->
    model st' = steps (model st) bs /\
    forwards tr = map (fun b => (true, claims b, evidences b)) bs /\
    best_accuracy st' = best_accuracy st /\
    val_running_loss st' = val_running_loss st /\
    val_running_accuracy st' = val_running_accuracy st.
Proof.
  induction bs as [|b bs IH]; intros i st tr st' H.
  - by injection H as <- <-.
  - simpl enumerate_from in H. rewrite for_each_cons in H.
    apply bind_ok_inv in H as (l1 & st1 & l2 & E1 & E2 & ->).
    apply IH in E2 as (-> & E22 & -> & -> & ->).
    apply train_body_ok_inv in E1
      as (l & acc & _ & _ & _ & -> & -> & _ & _ & _ & -> & -> & Hc).
    rewrite forwards_app, E22. repeat split; try done.
    destruct (_ && _).
    + by destruct Hc as (p & ml & ma & _ & _ & -> & _).
    + by destruct Hc as (-> & _).
Qed.

(** X2.  A training loop that runs through gives every yielded batch exactly
    one forward pass and one optimizer step, in the order yielded, and
    leaves [best_accuracy] and the validation sums alone. *)
Theorem train_loop_steps F epoch dl B st tr st' :
  train_loop F epoch dl B st = (tr, Ok st') ->
  model st' = steps (model st) (yielded dl epoch) /\
  forwards tr = map (fun b => (true, claims b, evidences b)) (yielded dl epoch) /\
  best_accuracy st' = best_accuracy st /\
  val_running_loss st' = val_running_loss st /\
  val_running_accuracy st' = val_running_accuracy st.
Proof. apply train_loop_from_steps. Qed.

(** *** How many periodic reports an epoch makes *)

Lemma div_succ (F k : Z) :
  0 < F -> 1 <= k ->
  k / F = (k - 1) / F + (if decide (k mod F = 0) then 1 else 0).
Proof.
  intros HF Hk.
  pose proof (mod_pred F k HF ltac:(lia)) as Hm.
  pose proof (Z.div_mod k F ltac:(lia)) as E1.
  pose proof (Z.div_mod (k - 1) F ltac:(lia)) as E2.
  pose proof (Z.mod_pos_bound k F HF) as B1.
  destruct (decide (k mod F = 0)) as [E|E]; rewrite Hm in E2; nia.
Qed.

Lemma reports_before_succ (F k : Z) :
  0 < F -> 0 <= k ->
  reports_before F (k + 1)
  = reports_before F k + (if decide (k mod F = 0 /\ 0 < k) then 1 else 0).
Proof.
  intros HF Hk. unfold reports_before.
  destruct (Z.eq_dec k 0) as [->|Hne].
  - change (Z.max (0 + 1) 1 - 1) with 0. change (Z.max 0 1 - 1) with 0.
    destruct (decide (0 mod F = 0 /\ 0 < 0)) as [[_ ?]|_]; lia.
  - rewrite !Z.max_l by lia. replace (k + 1 - 1) with k by lia.
    rewrite div_succ by lia.
    destruct (decide (k mod F = 0)), (decide (_ /\ _)); lia.
Qed.

Lemma reports_before_mono (F i k : Z) :
  0 < F -> i <= k -> reports_before F i <= reports_before F k.
Proof.
  intros HF H. unfold reports_before. apply Z.div_le_mono; lia.
Qed.

Lemma train_loop_from_reports F epoch dl B bs :
  0 < F ->
  forall i st tr st',
    for_each (train_body F epoch dl B) (enumerate_from i bs) st = (tr, Ok st') ->
    Z.of_nat (length (train_reports tr))
    = reports_before F (Z.of_nat (i + length bs)) - reports_before F (Z.of_nat i).
Proof.
  intros HF. induction bs as [|b bs IH]; intros i st tr st' H.
  - injection H as <- <-. rewrite Nat.add_0_r. simpl. lia.
  - simpl enumerate_from in H. rewrite for_each_cons in H.
    apply bind_ok_inv in H as (l1 & st1 & l2 & E1 & E2 & ->).
    apply IH in E2. rewrite train_reports_app, length_app, Nat2Z.inj_add, E2.
    replace (S i + length bs)%nat with (i + length (b :: bs))%nat
      by (simpl; lia).
    rewrite Nat2Z.inj_succ, <- Z.add_1_r, (reports_before_succ F (Z.of_nat i))
      by lia.
    apply train_report_cadence in E1 as (l & acc & _ & _ & Hc).
    destruct (decide _) as [Hd|Hd];
      destruct Hc as [(Hc & (r & -> & _) & _)|(Hc & -> & _)]; simpl; lia.
Qed.

Lemma val_report_cadence F epoch dl B st i v tr st' :
  val_body F epoch dl B st (i, v) = (tr, Ok st') ->
  (Z.of_nat i mod F = 0 /\ 0 < Z.of_nat i) /\ (exists r, val_reports tr = [r])
  \/ ~ (Z.of_nat i mod F = 0 /\ 0 < Z.of_nat i) /\ val_reports tr = [].
Proof.
  intros H. apply val_body_ok_inv in H as (b & l & acc & H). simpl in H.
  destruct H as (_ & _ & _ & _ & _ & _ & _ & _ & _ & _ & _ & H).
  destruct (bool_decide _ && bool_decide _) eqn:Hb.
  - left. apply bool_cond_true in Hb. split; [done|].
    destruct H as (p & ml & ma & _ & _ & -> & _). by eexists.
  - right. destruct H as (-> & _).
    split; [|done]. rewrite <- bool_cond_true. by rewrite Hb.
Qed.

Lemma val_loop_from_reports F epoch dl B vs :
  0 < F ->
  forall i st tr st',
    for_each (val_body F epoch dl B) (enumerate_from i vs) st = (tr, Ok st') ->
    Z.of_nat (length (val_reports tr))
    = reports_before F (Z.of_nat (i + length vs)) - reports_before F (Z.of_nat i).
Proof.
  intros HF. induction vs as [|v vs IH]; intros i st tr st' H.
  - injection H as <- <-. rewrite Nat.add_0_r. simpl. lia.
  - simpl enumerate_from in H. rewrite for_each_cons in H.
    apply bind_ok_inv in H as (l1 & st1 & l2 & E1 & E2 & ->).
    apply IH in E2. rewrite val_reports_app, length_app, Nat2Z.inj_add, E2.
    replace (S i + length vs)%nat with (i + length (v :: vs))%nat
      by (simpl; lia).
    rewrite Nat2Z.inj_succ, <- Z.add_1_r, (reports_before_succ F (Z.of_nat i))
      by lia.
    apply val_report_cadence in E1.
    destruct (decide _) as [Hd|Hd];
      destruct E1 as [(Hc & (r & ->))|(Hc & ->)]; simpl; lia.
Qed.

(** X3.  With [n] batches and [OUTPUT_FREQ = F >= 1] a loop that runs through
    makes [floor((n-1)/F)] periodic reports (none for [n = 0]), as many as
    there are positive multiples of [F] among the batch indices.  This
    holds for the training loop and for the validation loop alike. *)
Theorem report_count F epoch train_dl val_dl B st tr st' st1 tr1 st1' :
  0 < F ->
  train_loop F epoch train_dl B st = (tr, Ok st') ->
  val_loop F epoch val_dl B st1 = (tr1, Ok st1') ->
  Z.of_nat (length (train_reports tr))
  = reports_before F (Z.of_nat (length (yielded train_dl epoch))) /\
  Z.of_nat (length (val_reports tr1))
  = reports_before F (Z.of_nat (length (yielded val_dl epoch))) /\
  forall n, 1 <= n -> reports_before F n = (n - 1) / F.
Proof.
  intros HF H1 H2.
  apply (train_loop_from_reports _ _ _ _ _ HF 0%nat) in H1.
  apply (val_loop_from_reports _ _ _ _ _ HF 0%nat) in H2.
  assert (E0 : reports_before F (Z.of_nat 0) = 0).
  { unfold reports_before. simpl. by rewrite Z.div_0_l by lia. }
  rewrite E0 in H1, H2. simpl in H1, H2.
  split; [lia|]. split; [lia|].
  intros n Hn. unfold reports_before. by rewrite Z.max_l by lia.
Qed.

(** X4.  The number of reports per epoch is between 49 and 99: with
    [OUTPUT_FREQ = floor(L/(50 B))] for [L >= 50 B] examples in
    [n = ceil(L/B)] batches. *)
Theorem report_count_bounds (L B n : Z) :
  1 <= B -> 50 * B <= L ->
  (n - 1) * B < L <= n * B ->
  exists F,
    OUTPUT_FREQ L B = Ok F /\ 1 <= F /\
    49 <= reports_before F n <= 99.
Proof.
  intros HB HL [Hn1 Hn2]. exists (L / (50 * B)).
  split; [apply OUTPUT_FREQ_div; lia|].
  assert (HF : 1 <= L / (50 * B)).
  { apply Z.div_le_lower_bound; lia. }
  split; [done|].
  set (F := L / (50 * B)) in *.
  assert (Hlo : 50 * B * F <= L).
  { unfold F. apply Z.mul_div_le. lia. }
  assert (Hhi : L < 50 * B * (F + 1)).
  { unfold F. pose proof (Z.mul_succ_div_gt L (50 * B) ltac:(lia)). lia. }
  assert (Hn : 50 * F <= n) by nia.
  unfold reports_before. rewrite Z.max_l by lia. split.
  - apply Z.div_le_lower_bound; [lia|]. nia.
  - assert ((n - 1) / F < 100); [|lia].
    apply Z.div_lt_upper_bound; [lia|]. nia.
Qed.

(** *** The mean training accuracy of an epoch *)

Lemma batch_accuracy_unit (y p : list pyfloat) (acc : pyfloat) :
  y <> [] -> length p = length y -> batch_accuracy y p = Ok acc ->
  exists a, acc = Fin a /\ (0 <= a)%Qc /\ (a <= 1)%Qc.
Proof.
  intros Hne Hlen. rewrite batch_accuracy_fraction by done.
  intros [= <-]. eexists. split; [done|]. apply Qc_ratio_bounds.
  - pose proof (matches_le_length y p). lia.
  - destruct y; simpl; [done|lia].
Qed.

Lemma train_loop_from_mean F epoch dl B bs :
  nonempty_batches bs ->
  forall i st tr st' (q0 : Qc),
    for_each (train_body F epoch dl B) (enumerate_from i bs) st = (tr, Ok st') ->
    mean_train_acc st = Fin q0 ->
    exists q, mean_train_acc st' = Fin q /\
              (q0 <= q)%Qc /\ (q <= q0 + Qc_of_Z (Z.of_nat (length bs)))%Qc.
Proof.
  induction 1 as [|b bs Hb _ IH]; intros i st tr st' q0 H Hq.
  - injection H as <- <-. exists q0. split; [done|]. split; [apply Qcle_refl|].
    change (Z.of_nat (length (A:=Batch) [])) with 0.
    rewrite Z2Qc_inj_0, Qcplus_0_r. apply Qcle_refl.
  - simpl enumerate_from in H. rewrite for_each_cons in H.
    apply bind_ok_inv in H as (l1 & st1 & l2 & E1 & E2 & ->).
    apply train_body_ok_inv in E1
      as (l & acc & Hc & Ha & _ & _ & _ & _ & _ & Hm & _).
    apply batch_accuracy_unit in Ha as (a & -> & Ha0 & Ha1); [|done|].
    2: { rewrite length_predict. by eapply criterion_ok_length. }
    rewrite Hq in Hm. simpl in Hm.
    destruct (IH _ _ _ _ _ E2 Hm) as (q & Hq' & Hlo & Hhi).
    exists q. split; [done|]. split.
    + eapply Qcle_trans; [|exact Hlo].
      rewrite <- (Qcplus_0_r q0) at 1. by apply Qcplus_le_mono_l.
    + eapply Qcle_trans; [exact Hhi|].
      change (length (b :: bs)) with (S (length bs)).
      rewrite Nat2Z.inj_succ, <- Z.add_1_l, Z2Qc_inj_add, Z2Qc_inj_1.
      rewrite Qcplus_assoc. apply Qcplus_le_mono_r. by apply Qcplus_le_mono_l.
Qed.

(** The phases of an epoch that runs through. *)
Lemma epoch_body_ok_phases F train_dl val_dl B st e tr st' :
  epoch_body F train_dl val_dl B st e = (tr, Ok st') ->
  exists l1 st1 l2 st2 a,
    train_loop F e train_dl B (epoch_start st) = (l1, Ok st1) /\
    val_loop F e val_dl B st1 = (l2, Ok st2) /\
    fdiv_int (mean_train_acc st1) (loader_len train_dl) = Ok a /\
    tr = l1 ++ [EvPrint "Running validation..."] ++ l2
         ++ epoch_end_events e (model st1) a (py_max a (best_accuracy st)) /\
    best_accuracy st' = py_max a (best_accuracy st) /\
    model st' = model st1.
Proof.
  intros H. unfold epoch_body in H.
  apply bind_ok_inv in H as (l1 & st1 & l2 & E1 & H & ->).
  apply bind_ok_inv in H as (l3 & [] & l4 & E3 & H & ->).
  apply bind_ok_inv in H as (l5 & st2 & l6 & E5 & H & ->).
  injection E3 as <-.
  apply epoch_end_ok_inv in H as (a & Ha & Hb & Hm & ->).
  destruct (validation_frame_aux F e val_dl B st1 l5 st2 E5) as (Hvm & Hvb & Hva).
  pose proof (train_loop_from_steps _ _ _ _ _ _ _ _ _ E1) as (_ & _ & Hb1 & _).
  exists l1, st1, l5, st2, a. rewrite Hva in Ha. rewrite Hvb, Hb1 in Hb.
  rewrite Hvm, Hvb, Hb1. rewrite Hvm in Hm. by repeat split.
Qed.

Lemma train_loop_mean_unit F epoch dl B st tr st' a :
  nonempty_batches (yielded dl epoch) ->
  loader_len dl = Z.of_nat (length (yielded dl epoch)) ->
  train_loop F epoch dl B (epoch_start st) = (tr, Ok st') ->
  fdiv_int (mean_train_acc st') (loader_len dl) = Ok a ->
  exists q, a = Fin q /\ (0 <= q)%Qc /\ (q <= 1)%Qc.
Proof.
  intros Hne Hlen H Ha. unfold train_loop, enumerate in H.
  destruct (train_loop_from_mean F epoch dl B _ Hne _ _ _ _ 0%Qc H)
    as (s & Hs & Hlo & Hhi).
  { simpl. unfold zero, Qc0. by rewrite Z2Qc_inj_0. }
  rewrite Qcplus_0_l, <- Hlen in Hhi.
  rewrite Hs in Ha. apply fdiv_int_fin in Ha as [Hn ->].
  exists (s / Qc_of_Z (loader_len dl))%Qc. split; [done|].
  assert (Hpos : (0 < Qc_of_Z (loader_len dl))%Qc).
  { assert (0 < loader_len dl) as Hl by lia.
    apply (proj1 (Z2Qc_inj_lt 0 _)) in Hl. by rewrite Z2Qc_inj_0 in Hl. }
  split.
  - apply Qcmult_nonneg_nonneg; [done|]. apply Qclt_le_weak. by apply Qcinv_pos.
  - apply (Qcmult_le_mono_pos_r _ _ (Qc_of_Z (loader_len dl))); [done|].
    unfold Qcdiv. rewrite <- Qcmult_assoc, Qcmult_inv_l, Qcmult_1_r, Qcmult_1_l.
    + done.
    + intros E. rewrite E in Hpos. by apply Qclt_not_eq in Hpos.
Qed.

Lemma elem_of_mean_accuracies tr e a :
  (e, a) ∈ mean_accuracies tr <-> EvMeanAccuracy e a ∈ tr.
Proof.
  unfold mean_accuracies. rewrite list_elem_of_omap. split.
  - intros (ev & Hin & E). destruct ev; try done. by injection E as -> ->.
  - intros H. by exists (EvMeanAccuracy e a).
Qed.

Lemma elem_of_saved tr ck :
  ck ∈ saved tr <-> exists f, EvSave ck f ∈ tr.
Proof.
  unfold saved. rewrite list_elem_of_omap. split.
  - intros (ev & Hin & E). destruct ev; try done. injection E as ->. eauto.
  - intros [f H]. by exists (EvSave ck f).
Qed.

Lemma quiet_not_mean tr e a : Forall quiet tr -> EvMeanAccuracy e a ∉ tr.
Proof. intros H Hin. rewrite Forall_forall in H. by apply H in Hin. Qed.

Lemma quiet_not_save tr ck f : Forall quiet tr -> EvSave ck f ∉ tr.
Proof. intros H Hin. rewrite Forall_forall in H. by apply H in Hin. Qed.

(** The three kinds of events that end an epoch, read off its log. *)
Lemma epoch_body_end_events F train_dl val_dl B st e tr res ev :
  epoch_body F train_dl val_dl B st e = (tr, res) ->
  ev ∈ tr -> ~ quiet ev ->
  exists l1 st1 l2 st2 a st',
    res = Ok st' /\
    train_loop F e train_dl B (epoch_start st) = (l1, Ok st1) /\
    val_loop F e val_dl B st1 = (l2, Ok st2) /\
    fdiv_int (mean_train_acc st1) (loader_len train_dl) = Ok a /\
    ev ∈ epoch_end_events e (model st1) a (py_max a (best_accuracy st)).
Proof.
  intros H Hin Hq. destruct res as [st'|x].
  - destruct (epoch_body_ok_phases _ _ _ _ _ _ _ _ H)
      as (l1 & st1 & l2 & st2 & a & E1 & E2 & Ea & -> & _).
    exists l1, st1, l2, st2, a, st'. repeat (split; [done|]).
    pose proof (train_loop_trace F e train_dl B (epoch_start st)) as T1.
    pose proof (val_loop_trace F e val_dl B st1) as T2.
    rewrite E1 in T1. rewrite E2 in T2. simpl in T1, T2.
    rewrite Forall_forall in T1. rewrite Forall_forall in T2.
    apply elem_of_app in Hin as [Hin|Hin].
    { destruct Hq. by eapply train_event_quiet, T1. }
    apply elem_of_app in Hin as [Hin|Hin].
    { apply list_elem_of_singleton in Hin as ->. by destruct Hq. }
    apply elem_of_app in Hin as [Hin|Hin]; [|done].
    destruct Hq. by eapply val_event_quiet, T2.
  - apply epoch_body_raise_inv in H. rewrite Forall_forall in H.
    destruct Hq. by apply H.
Qed.

Lemma for_each_events {X S} (body : S -> X -> M S) (xs : list X) (st : S) ev :
  ev ∈ (for_each body xs st).1 -> exists x s, x ∈ xs /\ ev ∈ (body s x).1.
Proof.
  revert st. induction xs as [|x xs IH]; intros st H.
  - by apply elem_of_nil in H.
  - rewrite for_each_cons in H. unfold bind in H.
    destruct (body st x) as [l1 [a|e]] eqn:E.
    + destruct (for_each body xs a) as [l2 r] eqn:E2. simpl in H.
      apply elem_of_app in H as [H|H].
      * exists x, st. split; [by left|]. by rewrite E.
      * destruct (IH a) as (x' & s & Hx & Hev); [by rewrite E2|].
        exists x', s. split; [by right|done].
    + exists x, st. split; [by left|]. by rewrite E.
Qed.

(** Every event of a run is one of the three opening messages or belongs
    to the log of one of its epochs. *)
Lemma run_events args train sparse cd ev :
  ev ∈ (run args train sparse cd).1 ->
  ev ∈ [EvPrint "Created model..."; EvPrint "Created dataset...";
        EvPrint "Training..."] \/
  exists size F e st,
    train_size (Z.of_nat (length train)) = Ok size /\
    1 <= batch_size args /\
    let train_dl :=
      wiki_loader (slice_to size train) cd (data_batch_size args) sparse
        (batch_size args) in
    let val_dl :=
      wiki_loader (slice_from size train) cd (data_batch_size args) sparse
        (batch_size args) in
    OUTPUT_FREQ (dataset_len train_dl) (batch_size args) = Ok F /\
    (e < Z.to_nat (epochs args))%nat /\
    ev ∈ (epoch_body F train_dl val_dl (batch_size args) st e).1.
Proof.
  unfold run. rewrite !bind_emit.
  change ((?a :: ?l, ?r).1) with (a :: l).
  intros H. apply elem_of_cons in H as [->|H]; [left; by left|].
  revert H. change ((?a :: ?l, ?r).1) with (a :: l). intros H.
  apply elem_of_cons in H as [->|H]; [left; right; by left|].
  destruct (train_size _) as [size|x] eqn:Es.
  2: { by apply elem_of_nil in H. }
  rewrite (bind_lift_ok _ size) in H by done.
  destruct (bool_decide_reflect (batch_size args <= 0)) as [|HB].
  { by apply elem_of_nil in H. }
  rewrite bind_ret in H.
  destruct (OUTPUT_FREQ _ _) as [F|x] eqn:EF.
  2: { by apply elem_of_nil in H. }
  rewrite (bind_lift_ok _ F) in H by done. rewrite bind_emit in H.
  revert H. change ((?a :: ?l, ?r).1) with (a :: l). intros H.
  apply elem_of_cons in H as [->|H]; [left; right; right; by left|].
  right. apply for_each_events in H as (e & st & He & Hev).
  apply elem_of_seq in He.
  exists size, F, e, st. repeat split; try done; lia.
Qed.

Lemma fge_py_max (a b : pyfloat) :
  fge a (py_max a b) = true -> py_max a b = a /\ exists q, a = Fin q.
Proof.
  unfold py_max. destruct (fgt b a) eqn:Hgt.
  - destruct a as [qa|], b as [qb|]; simpl in *; try done.
    intros Hge. apply bool_decide_eq_true in Hgt, Hge.
    exfalso. by eapply Qclt_not_le.
  - destruct a as [qa|]; [eauto|done].
Qed.

(** X5.  What a checkpoint holds.  Within an epoch, a saved checkpoint carries
    the epoch's number, the model as the epoch's optimizer steps left it
    (validation does not touch it) and, as [best_accuracy], the very
    accuracy that ends its file name, which is the epoch's printed mean
    accuracy and never NaN.  In a run, every saved checkpoint has
    [best_accuracy] equal to the accuracy of its file name, a number, and
    its epoch is below [NUM_EPOCHS]. *)
Theorem checkpoint_contents :
  (forall F train_dl val_dl B st e tr res ck f,
     epoch_body F train_dl val_dl B st e = (tr, res) ->
     EvSave ck f ∈ tr ->
     ck_epoch ck = e /\
     ck_state_dict ck = steps (model st) (yielded train_dl e) /\
     ck_best_accuracy ck = f /\
     (exists q, f = Fin q) /\
     EvMeanAccuracy e f ∈ tr) /\
  (forall args train sparse cd ck f,
     EvSave ck f ∈ (run args train sparse cd).1 ->
     ck_best_accuracy ck = f /\
     (exists q, f = Fin q) /\
     (ck_epoch ck < Z.to_nat (epochs args))%nat).
Proof.
  assert (Hepoch : forall F train_dl val_dl B st e tr res ck f,
     epoch_body F train_dl val_dl B st e = (tr, res) ->
     EvSave ck f ∈ tr ->
     ck_epoch ck = e /\
     ck_state_dict ck = steps (model st) (yielded train_dl e) /\
     ck_best_accuracy ck = f /\
     (exists q, f = Fin q) /\
     EvMeanAccuracy e f ∈ tr).
  { intros F train_dl val_dl B st e tr res ck f E Hin.
    destruct (epoch_body_end_events _ _ _ _ _ _ _ _ _ E Hin)
      as (l1 & st1 & l2 & st2 & a & st' & -> & E1 & _ & Ea & Hev);
      [by intros []|].
    destruct (epoch_body_ok_phases _ _ _ _ _ _ _ _ E)
      as (l1' & st1' & l2' & st2' & a' & E1' & _ & Ea' & -> & _).
    rewrite E1 in E1'. injection E1' as <- <-.
    rewrite Ea in Ea'. injection Ea' as <-.
    pose proof (train_loop_from_steps _ _ _ _ _ _ _ _ _ E1) as (Hm & _).
    unfold epoch_end_events in Hev.
    apply elem_of_cons in Hev as [Hev|Hev]; [done|].
    destruct (fge a (py_max a (best_accuracy st))) eqn:Hge.
    2: { repeat (apply elem_of_cons in Hev as [Hev|Hev]; [done|]).
         by apply elem_of_nil in Hev. }
    apply elem_of_cons in Hev as [Hev|Hev]; [done|].
    apply list_elem_of_singleton in Hev. injection Hev as -> ->.
    apply fge_py_max in Hge as [Hmax Hfin]. simpl.
    repeat split; try done.
    apply elem_of_app. right. apply elem_of_cons. right.
    apply elem_of_app. right. unfold epoch_end_events. by left. }
  split; [exact Hepoch|].
  intros args train sparse cd ck f Hin.
  apply run_events in Hin as [Hin|(size & F & e & st & _ & _ & _ & He & Hin)].
  { repeat (apply elem_of_cons in Hin as [Hin|Hin]; [done|]).
    by apply elem_of_nil in Hin. }
  destruct (epoch_body _ _ _ _ _ _) as [tr res] eqn:E. simpl in Hin.
  by destruct (Hepoch _ _ _ _ _ _ _ _ _ _ E Hin) as (<- & _ & Hb & Hq & _).
Qed.

Lemma run_accuracies_unit args train sparse cd :
  loader_batches_nonempty -> loader_len_exact ->
  forall e a, (e, a) ∈ mean_accuracies (run args train sparse cd).1 ->
    exists q, a = Fin q /\ (0 <= q)%Qc /\ (q <= 1)%Qc.
Proof.
  intros Hne Hlen e a Hin. apply elem_of_mean_accuracies in Hin.
  apply run_events in Hin as [Hin|(size & F & e0 & st & _ & _ & _ & _ & Hin)].
  { repeat (apply elem_of_cons in Hin as [Hin|Hin]; [done|]).
    by apply elem_of_nil in Hin. }
  destruct (epoch_body _ _ _ _ _ _) as [tr res] eqn:E. simpl in Hin.
  destruct (epoch_body_end_events _ _ _ _ _ _ _ _ _ E Hin)
    as (l1 & st1 & l2 & st2 & a0 & st' & _ & E1 & _ & Ea & Hev); [by intros []|].
  unfold epoch_end_events in Hev.
  apply elem_of_cons in Hev as [Hev|Hev].
  - injection Hev as -> ->. by eapply train_loop_mean_unit.
  - destruct (fge _ _);
      repeat (apply elem_of_cons in Hev as [Hev|Hev]; [done|]);
      by apply elem_of_nil in Hev.
Qed.

(** X6.  Every mean training accuracy a run prints is a number between 0 and 1,
    provided no batch is empty and [len(train_dataloader)] counts the
    batches the loader yields.  (The windowed reports have no such bound:
    the first one of an epoch can exceed 1.) *)
Theorem printed_accuracy_in_unit_interval args train sparse cd e a :
  loader_batches_nonempty -> loader_len_exact ->
  (e, a) ∈ mean_accuracies (run args train sparse cd).1 ->
  exists q, a = Fin q /\ (0 <= q)%Qc /\ (q <= 1)%Qc.
Proof. intros Hne Hlen. by apply run_accuracies_unit. Qed.

(** X7.  A run that completes its first epoch writes a checkpoint for it: the
    initial best is 0.0 and a mean accuracy is never below 0. *)
Theorem first_epoch_writes_checkpoint args train sparse cd a :
  loader_batches_nonempty -> loader_len_exact ->
  (0%nat, a) ∈ mean_accuracies (run args train sparse cd).1 ->
  written_at (run args train sparse cd).1 0.
Proof.
  intros Hne Hlen Hin.
  destruct (run_accuracies_unit args train sparse cd Hne Hlen _ _ Hin)
    as (q & -> & Hq0 & _).
  destruct (run_log_ok args train sparse cd Hne) as (k & best & Hinv).
  destruct Hinv as [Hep _ _ Hwr _ _].
  apply list_elem_of_lookup_1 in Hin as [i Hi].
  assert (i = 0%nat) as ->.
  { apply (f_equal (fmap fst)) in Hi. rewrite <- list_lookup_fmap, Hep in Hi.
    simpl in Hi. apply lookup_seq in Hi. lia. }
  apply (Hwr 0%nat q).
  - by rewrite list_lookup_fmap, Hi.
  - simpl. unfold max_accuracy. simpl. unfold Qc0. by rewrite Z2Qc_inj_0.
Qed.

(** *** An epoch without training batches *)

(** X8.  When the training loader yields nothing and [inputs] is still unbound
    (as in the first epoch), the epoch cannot end normally: the first
    validation batch raises NameError on [inputs]; without validation
    batches the mean accuracy divides by [len(train_dataloader) = 0].
    [OUTPUT_FREQ] plays no part. *)
Theorem epoch_without_training_batches F train_dl val_dl B st e :
  yielded train_dl e = [] ->
  inputs st = None ->
  (yielded val_dl e <> [] ->
     epoch_body F train_dl val_dl B st e
     = ([EvPrint "Running validation..."], Raise (NameError "inputs"))) /\
  (yielded val_dl e = [] -> loader_len train_dl = 0 ->
     epoch_body F train_dl val_dl B st e
     = ([EvPrint "Running validation..."], Raise ZeroDivisionError)).
Proof.
  intros Ht Hin. unfold epoch_body, train_loop, val_loop, enumerate.
  rewrite Ht. simpl enumerate_from.
  change (for_each (train_body F e train_dl B) [] (epoch_start st))
    with (ret (A:=locals) (epoch_start st)).
  rewrite bind_ret. split.
  - intros Hv. destruct (yielded val_dl e) as [|v vs]; [done|].
    simpl enumerate_from. rewrite for_each_cons.
    unfold val_body. simpl inputs. rewrite Hin. reflexivity.
  - intros Hv Hl. rewrite Hv. simpl enumerate_from.
    unfold epoch_end. rewrite Hl. reflexivity.
Qed.

(** *** What the validation reports show *)

Lemma Qc_first_window (F : Z) (q : Qc) :
  0 < F ->
  ((Qc_of_Z F * q + q) / Qc_of_Z F)%Qc
  = (Qc_of_Z (F + 1) * q / Qc_of_Z F)%Qc.
Proof.
  intros HF. f_equal. rewrite Z2Qc_inj_add, Z2Qc_inj_1. ring.
Qed.

Lemma window_count_below (F i : Z) : i <= F -> window_count F i = i.
Proof. intros H. unfold window_count. by rewrite bool_decide_true. Qed.

Lemma val_loop_from_metrics F epoch dl B (b : Batch) (m : Model) (a q : Qc)
    (vs : list Batch) :
  0 < F ->
  batch_accuracy (labels b)
    (predict (forward false m (claims b) (evidences b))) = Ok (Fin a) ->
  forall i st tr st',
    model st = m -> inputs st = Some b -> loss st = Some (Fin q) ->
    val_running_loss st = Fin (Qc_of_Z (window_count F (Z.of_nat i)) * q) ->
    val_running_accuracy st = Fin (Qc_of_Z (window_count F (Z.of_nat i)) * a) ->
    for_each (val_body F epoch dl B) (enumerate_from i vs) st = (tr, Ok st') ->
    let steady r := rp_loss r = Fin q /\ rp_accuracy r = Fin a in
    let first r :=
      rp_loss r = Fin (Qc_of_Z (F + 1) * q / Qc_of_Z F) /\
      rp_accuracy r = Fin (Qc_of_Z (F + 1) * a / Qc_of_Z F) in
    if bool_decide (F < Z.of_nat i) then Forall steady (val_reports tr)
    else match val_reports tr with
         | [] => True
         | r :: rs => first r /\ Forall steady rs
         end.
Proof.
  intros HF Hacc. induction vs as [|v vs IH];
    intros i st tr st' Hm Hin Hl Hsl Hsa H steady first.
  - injection H as <- <-. simpl. by destruct (bool_decide _).
  - simpl enumerate_from in H. rewrite for_each_cons in H.
    apply bind_ok_inv in H as (l1 & st1 & l2 & E1 & E2 & ->).
    apply val_body_ok_inv in E1 as (b0 & l & acc & E1). simpl in E1.
    destruct E1 as (Hin0 & Hl0 & Ha0 & _ & Hm1 & _ & Hin1 & Hl1 & _ & _ & _ & Hc).
    rewrite Hin in Hin0. injection Hin0 as <-.
    rewrite Hl in Hl0. injection Hl0 as <-.
    rewrite Hm, Hacc in Ha0. injection Ha0 as <-.
    rewrite Hm in Hm1. rewrite Hin in Hin1. rewrite Hl in Hl1.
    specialize (IH (S i) st1 l2 st' Hm1 Hin1 Hl1).
    destruct (bool_decide _ && bool_decide _) eqn:Hb.
    + apply bool_cond_true in Hb as [Hmod Hi].
      assert (HFi : F <= Z.of_nat i).
      { destruct (Z_lt_le_dec (Z.of_nat i) F) as [Hlt|]; [|done].
        rewrite Z.mod_small in Hmod by lia. lia. }
      destruct Hc as (p & ml & ma & Hml & Hma & -> & Hz1 & Hz2).
      rewrite Hsl in Hml. rewrite Hsa in Hma. simpl in Hml, Hma.
      apply fdiv_int_fin in Hml as [_ ->]. apply fdiv_int_fin in Hma as [_ ->].
      assert (Hw : window_count F (Z.of_nat (S i)) = 0).
      { rewrite Nat2Z.inj_succ, <- Z.add_1_r. by apply window_count_reset. }
      rewrite Hw, Hz1, Hz2 in IH.
      assert (Hzero : forall x : Qc, zero = Fin (Qc_of_Z 0 * x)).
      { intros x. unfold zero, Qc0. f_equal. rewrite Z2Qc_inj_0. ring. }
      specialize (IH (Hzero q) (Hzero a) E2). simpl in IH.
      rewrite bool_decide_true in IH by lia.
      change ([EvForward false (claims b) (evidences b); EvValReport ?r] ++ l2)
        with ([EvForward false (claims b) (evidences b)] ++ [EvValReport r] ++ l2).
      rewrite !val_reports_app. simpl.
      destruct (bool_decide_reflect (F < Z.of_nat i)) as [Hlt|Hge].
      * constructor; [|done]. unfold steady. simpl.
        rewrite window_count_full by done.
        by rewrite !Qc_window_mean by done.
      * split; [|done]. unfold first. simpl.
        assert (Z.of_nat i = F) as -> by lia.
        rewrite window_count_below by lia.
        by rewrite !Qc_first_window by done.
    + destruct Hc as (-> & Hz1 & Hz2).
      assert (Hnc : ~ (Z.of_nat i mod F = 0 /\ 0 < Z.of_nat i)).
      { rewrite <- bool_cond_true. by rewrite Hb. }
      assert (Hw : window_count F (Z.of_nat (S i))
                   = window_count F (Z.of_nat i) + 1).
      { rewrite Nat2Z.inj_succ, <- Z.add_1_r. apply window_count_succ; [done|lia|done]. }
      rewrite Hw, Hz1, Hz2, Hsl, Hsa in IH.
      assert (Hadd : forall c x : Qc,
                fadd (Fin (c * x)) (Fin x) = Fin ((c + 1) * x)).
      { intros c x. simpl. f_equal. ring. }
      rewrite Z2Qc_inj_add, Z2Qc_inj_1 in IH.
      specialize (IH (Hadd _ q) (Hadd _ a) E2). simpl in IH.
      change ([EvForward false (claims b) (evidences b)] ++ l2)
        with (EvForward false (claims b) (evidences b) :: l2).
      change (val_reports (EvForward false (claims b) (evidences b) :: l2))
        with (val_reports l2).
      destruct (bool_decide_reflect (F < Z.of_nat i)) as [Hlt|Hge].
      * by rewrite bool_decide_true in IH by lia.
      * destruct (bool_decide_reflect (F < Z.of_nat (S i))) as [Hlt'|]; [|done].
        assert (Z.of_nat i = F) as Hi by lia.
        exfalso. apply Hnc. rewrite Hi, Z.mod_same by lia. lia.
Qed.

(** X9.  In one epoch every validation batch evaluates the same model on the
    same batch, so all validation reports repeat one accuracy and one
    loss: the reports after the first show exactly the accuracy of the
    model on the last training batch and the stale loss; the first shows
    both multiplied by (OUTPUT_FREQ+1)/OUTPUT_FREQ, because it sums
    OUTPUT_FREQ+1 batches. *)
Theorem validation_reports_repeat F epoch dl B st tr st' (b : Batch) (q : Qc) :
  0 < F ->
  inputs st = Some b -> loss st = Some (Fin q) ->
  labels b <> [] ->
  length (forward false (model st) (claims b) (evidences b)) = length (labels b) ->
  val_running_loss st = zero -> val_running_accuracy st = zero ->
  val_loop F epoch dl B st = (tr, Ok st') ->
  exists a : Qc,
    batch_accuracy (labels b)
      (predict (forward false (model st) (claims b) (evidences b)))
    = Ok (Fin a) /\
    match val_reports tr with
    | [] => True
    | r :: rs =>
        rp_loss r = Fin (Qc_of_Z (F + 1) * q / Qc_of_Z F) /\
        rp_accuracy r = Fin (Qc_of_Z (F + 1) * a / Qc_of_Z F) /\
        Forall (fun r' => rp_loss r' = Fin q /\ rp_accuracy r' = Fin a) rs
    end.
Proof.
  intros HF Hin Hl Hne Hlen Hzl Hza H.
  eexists. split.
  { apply batch_accuracy_fraction; [done|]. by rewrite length_predict. }
  unfold val_loop, enumerate in H.
  eapply (val_loop_from_metrics F epoch dl B b (model st) _ q _ HF) in H;
    try done.
  - rewrite bool_decide_false in H by (simpl; lia).
    destruct (val_reports tr) as [|r rs]; [done|].
    by destruct H as ((? & ?) & ?).
  - apply batch_accuracy_fraction; [done|]. by rewrite length_predict.
  - rewrite Hzl. change (Z.of_nat 0) with 0.
    rewrite window_count_below by lia. unfold zero, Qc0. f_equal.
    rewrite Z2Qc_inj_0. ring.
  - rewrite Hza. change (Z.of_nat 0) with 0.
    rewrite window_count_below by lia. unfold zero, Qc0. f_equal.
    rewrite Z2Qc_inj_0. ring.
Qed.

(** *** When a run goes through *)

Lemma val_body_total F epoch dl B st i v (b : Batch) (l : pyfloat) :
  F <> 0 -> B <> 0 -> dataset_len dl <> 0 ->
  inputs st = Some b -> loss st = Some l ->
  length (forward false (model st) (claims b) (evidences b)) = length (labels b) ->
  exists tr st', val_body F epoch dl B st (i, v) = (tr, Ok st').
Proof.
  intros HF HB HL Hin Hl Hlen. unfold val_body, read.
  rewrite Hin, bind_ret, bind_emit.
  match goal with
  | |- exists _ _, (_ :: ?X.1, ?X.2) = _ =>
      cut (exists tr st', X = (tr, Ok st'));
      [intros (tr & st' & ->); simpl; eauto|]
  end.
  destruct (batch_accuracy_ok (labels b)
              (predict (forward false (model st) (claims b) (evidences b))))
    as [acc Ha]; [by rewrite length_predict|].
  rewrite (bind_lift_ok _ _ _ Ha). rewrite Hl, bind_ret.
  unfold py_mod. destruct (decide (F = 0)); [done|].
  rewrite (bind_lift_ok _ (Z.of_nat i mod F)) by done.
  destruct (_ && _).
  - unfold int_truediv, float_of_int, ftruediv at 1.
    destruct (decide _) as [E|_]; [by apply Z2Qc_inj in E|].
    rewrite (bind_lift_ok _ (Fin (Qc_of_Z (dataset_len dl) / Qc_of_Z B)))
      by done.
    destruct (ftruediv_ok (Fin (Qc_of_Z (Z.of_nat i)))
                (Qc_of_Z (dataset_len dl) / Qc_of_Z B)) as [p Hp];
      [by apply Qc_ratio_ne0|].
    unfold int_div_float, float_of_int. rewrite (bind_lift_ok _ p) by done.
    destruct (ftruediv_ok (fadd (val_running_loss st) l) (Qc_of_Z F))
      as [ml Hml]; [by apply Qc_of_Z_ne0|].
    destruct (ftruediv_ok (fadd (val_running_accuracy st) acc) (Qc_of_Z F))
      as [ma Hma]; [by apply Qc_of_Z_ne0|].
    unfold fdiv_int, float_of_int.
    rewrite (bind_lift_ok _ ml) by done. rewrite (bind_lift_ok _ ma) by done.
    unfold bind, emit, ret. simpl. eauto.
  - unfold bind, ret. simpl. eauto.
Qed.

Lemma val_loop_from_total F epoch dl B (b : Batch) (l : pyfloat) (m : Model) vs :
  F <> 0 -> B <> 0 -> dataset_len dl <> 0 ->
  length (forward false m (claims b) (evidences b)) = length (labels b) ->
  forall i st,
    model st = m -> inputs st = Some b -> loss st = Some l ->
    exists tr st',
      for_each (val_body F epoch dl B) (enumerate_from i vs) st = (tr, Ok st').
Proof.
  intros HF HB HL Hlen. induction vs as [|v vs IH]; intros i st Hm Hin Hl.
  - by eexists _, _.
  - simpl enumerate_from. rewrite for_each_cons.
    destruct (val_body_total F epoch dl B st i v b l) as (l1 & st1 & E1);
      try done; [by rewrite Hm|].
    pose proof E1 as E1'.
    apply val_body_ok_inv in E1' as (b0 & l0 & acc & E1'). simpl in E1'.
    destruct E1' as (_ & _ & _ & _ & Hm1 & _ & Hin1 & Hl1 & _).
    destruct (IH (S i) st1) as (l2 & st2 & E2); [congruence..|].
    rewrite E1. unfold bind. rewrite E2. eauto.
Qed.

Lemma train_loop_from_bound F epoch dl B bs :
  bs <> [] ->
  forall i st tr st',
    for_each (train_body F epoch dl B) (enumerate_from i bs) st = (tr, Ok st') ->
    exists b l, b ∈ bs /\ inputs st' = Some b /\ loss st' = Some l.
Proof.
  induction bs as [|b bs IH]; [done|]. intros _ i st tr st' H.
  simpl enumerate_from in H. rewrite for_each_cons in H.
  apply bind_ok_inv in H as (l1 & st1 & l2 & E1 & E2 & ->).
  destruct bs as [|b' bs].
  - injection E2 as _ <-.
    apply train_body_ok_inv in E1 as (l & acc & _ & _ & _ & _ & _ & Hi & Hl & _).
    exists b, l. split; [by left|done].
  - destruct (IH ltac:(done) _ _ _ _ E2) as (b0 & l0 & Hb0 & ? & ?).
    exists b0, l0. split; [by right|done].
Qed.

Lemma epoch_end_total epoch dl st :
  loader_len dl <> 0 -> exists tr st', epoch_end epoch dl st = (tr, Ok st').
Proof.
  intros Hl. unfold epoch_end.
  destruct (ftruediv_ok (mean_train_acc st) (Qc_of_Z (loader_len dl)))
    as [a Ha]; [by apply Qc_of_Z_ne0|].
  unfold fdiv_int, float_of_int. rewrite (bind_lift_ok _ a) by done.
  unfold save_checkpoint, bind, emit, ret. destruct (fge _ _); simpl; eauto.
Qed.

Lemma bind_ret_pair {A B} (l : list event) (a : A) (k : A -> M B) :
  bind (l, Ok a) k = (l ++ (k a).1, (k a).2).
Proof. unfold bind. by destruct (k a). Qed.

Lemma epoch_body_total F train_dl val_dl B st e :
  F <> 0 -> B <> 0 ->
  dataset_len train_dl <> 0 -> dataset_len val_dl <> 0 ->
  loader_len train_dl <> 0 ->
  yielded train_dl e <> [] -> well_sized train_dl ->
  exists tr st', epoch_body F train_dl val_dl B st e = (tr, Ok st').
Proof.
  intros HF HB HL HLv Hlen Hne Hsz. unfold epoch_body.
  destruct (train_loop_from_total F e train_dl B (yielded train_dl e)
              HF HB HL (fun m b Hb => Hsz e true m b Hb) 0%nat (epoch_start st))
    as (l1 & st1 & E1).
  fold (enumerate (yielded train_dl e)) in E1.
  fold (train_loop F e train_dl B (epoch_start st)) in E1.
  rewrite E1. rewrite bind_ret_pair.
  destruct (train_loop_from_bound F e train_dl B _ Hne _ _ _ _ E1)
    as (b & l & Hb & Hin & Hl).
  destruct (val_loop_from_total F e val_dl B b l (model st1)
              (yielded val_dl e) HF HB HLv (Hsz e false _ b Hb) 0%nat st1)
    as (l2 & st2 & E2); try done.
  fold (enumerate (yielded val_dl e)) in E2.
  fold (val_loop F e val_dl B st1) in E2.
  destruct (epoch_end_total e train_dl st2 Hlen) as (l3 & st3 & E3).
  unfold bind, emit. rewrite E2, E3. eauto.
Qed.

Lemma epoch_body_ok_mean F train_dl val_dl B st e tr st' :
  epoch_body F train_dl val_dl B st e = (tr, Ok st') ->
  exists a, mean_accuracies tr = [(e, a)].
Proof.
  intros H.
  destruct (epoch_body_ok_phases _ _ _ _ _ _ _ _ H)
    as (l1 & st1 & l2 & st2 & a & E1 & E2 & _ & -> & _).
  pose proof (train_loop_trace F e train_dl B (epoch_start st)) as T1.
  pose proof (val_loop_trace F e val_dl B st1) as T2.
  rewrite E1 in T1. rewrite E2 in T2. simpl in T1, T2.
  destruct (quiet_log l1) as [Q1 _].
  { eapply Forall_impl; [exact T1|]. apply train_event_quiet. }
  destruct (quiet_log l2) as [Q2 _].
  { eapply Forall_impl; [exact T2|]. apply val_event_quiet. }
  destruct (epoch_end_events_quiet_prefix e (model st1) a
              (py_max a (best_accuracy st))) as [Q3 _].
  exists a. rewrite !mean_accuracies_app, Q1, Q2, Q3. done.
Qed.

Lemma epochs_total F train_dl val_dl B :
  F <> 0 -> B <> 0 ->
  dataset_len train_dl <> 0 -> dataset_len val_dl <> 0 ->
  loader_len train_dl <> 0 ->
  (forall e, yielded train_dl e <> []) -> well_sized train_dl ->
  forall n k st,
    exists tr st',
      for_each (epoch_body F train_dl val_dl B) (seq k n) st = (tr, Ok st') /\
      (mean_accuracies tr).*1 = seq k n.
Proof.
  intros HF HB HL HLv Hlen Hne Hsz n.
  induction n as [|n IH]; intros k st.
  - by eexists _, _.
  - change (seq k (S n)) with (k :: seq (S k) n). rewrite for_each_cons.
    destruct (epoch_body_total F train_dl val_dl B st k) as (l1 & st1 & E1);
      try done.
    destruct (IH (S k) st1) as (l2 & st2 & E2 & Hm).
    destruct (epoch_body_ok_mean _ _ _ _ _ _ _ _ E1) as [a Ha].
    rewrite E1. unfold bind. rewrite E2. eexists _, _. split; [done|].
    by rewrite mean_accuracies_app, fmap_app, Ha, Hm.
Qed.

(** X10.  A run goes through all its epochs and prints one mean accuracy for
    each, in order, when the batch size is at least 1, the training set
    has at least 50 times as many examples, the validation set is not
    empty, [len(train_dataloader)] is not 0, every epoch yields a training
    batch and the model answers one logit per label. *)
Theorem run_completes args train sparse cd :
  let B := batch_size args in
  let size := 4 * Z.of_nat (length train) / 5 in
  let train_dl :=
    wiki_loader (slice_to size train) cd (data_batch_size args) sparse B in
  let val_dl :=
    wiki_loader (slice_from size train) cd (data_batch_size args) sparse B in
  1 <= B ->
  50 * B <= dataset_len train_dl ->
  dataset_len val_dl <> 0 ->
  loader_len train_dl <> 0 ->
  (forall e, yielded train_dl e <> []) ->
  well_sized train_dl ->
  exists tr st',
    run args train sparse cd = (tr, Ok st') /\
    (mean_accuracies tr).*1 = seq 0 (Z.to_nat (epochs args)).
Proof.
  intros B size train_dl val_dl HB HL HLv Hlen Hne Hsz.
  unfold run. rewrite train_size_div by lia.
  fold B size. rewrite (bind_lift_ok _ size) by done.
  rewrite bool_decide_false by lia. rewrite bind_ret.
  fold train_dl val_dl.
  rewrite OUTPUT_FREQ_div by lia.
  rewrite (bind_lift_ok _ (dataset_len train_dl / (50 * B))) by done.
  assert (HF : 0 < dataset_len train_dl / (50 * B)).
  { apply Z.div_str_pos. lia. }
  destruct (epochs_total (dataset_len train_dl / (50 * B)) train_dl val_dl B
              ltac:(lia) ltac:(lia) ltac:(lia) HLv Hlen Hne Hsz
              (Z.to_nat (epochs args)) 0%nat init_locals)
    as (tr & st' & E & Hm).
  unfold bind, emit. rewrite E. eexists _, _. split; [done|].
  exact Hm.
Qed.


(** *** Loading the pickles *)

(** X12.  [__main__] loads [train.pkl] first, [evidence.pkl] next when the flag
    is set, [new_claims_dict.pkl] last; the first file missing in that
    order is the one reported, after the messages printed so far, and
    [run] is not entered. *)
Theorem main_first_missing_file fs args :
  let train_p := path_join (data args) "train.pkl" in
  let evidence_p := path_join (data args) "evidence.pkl" in
  let hello := EvPrint ("Loading " +:+ data args) in
  let sparse_msg :=
    if sparse_evidences args then [EvPrint "Loading sparse evidences..."]
    else [] in
  (fs !! train_p = None ->
     main fs args = ([hello], Raise (FileNotFoundError train_p))) /\
  (is_Some (fs !! train_p) -> sparse_evidences args = true ->
   fs !! evidence_p = None ->
     main fs args
     = (hello :: sparse_msg, Raise (FileNotFoundError evidence_p))) /\
  (is_Some (fs !! train_p) ->
   (sparse_evidences args = true -> is_Some (fs !! evidence_p)) ->
   fs !! "new_claims_dict.pkl" = None ->
     main fs args
     = (hello :: sparse_msg ++ [EvPrint "Loading claims data..."],
        Raise (FileNotFoundError "new_claims_dict.pkl"))).
Proof.
  intros train_p evidence_p hello sparse_msg.
  unfold main, joblib_load, bind, emit, ret, throw.
  fold train_p evidence_p hello. unfold sparse_msg.
  repeat split.
  - by intros ->.
  - intros [t ->] -> ->. reflexivity.
  - intros [t ->] Hev ->. destruct (sparse_evidences args).
    + destruct (Hev eq_refl) as [o ->]. reflexivity.
    + reflexivity.
Qed.

(** X13.  With all needed files on disk [__main__] prints its messages, sets the
    start method and hands over to [run].  Without [--sparse-evidences]
    the evidence file is never consulted ([run] gets [None]); with the
    flag [run] gets the loaded object.  The claims dictionary always comes
    from [new_claims_dict.pkl]. *)
Theorem main_hands_over_to_run fs args train cdict :
  let train_p := path_join (data args) "train.pkl" in
  let evidence_p := path_join (data args) "evidence.pkl" in
  let hello := EvPrint ("Loading " +:+ data args) in
  fs !! train_p = Some train ->
  fs !! "new_claims_dict.pkl" = Some cdict ->
  (sparse_evidences args = false ->
     let r := run args (as_list train) None cdict in
     main fs args
     = ([hello; EvPrint "Loading claims data..."; EvSetStartMethod "fork"]
        ++ r.1, r.2)) /\
  (forall ev, sparse_evidences args = true -> fs !! evidence_p = Some ev ->
     let r := run args (as_list train) (Some ev) cdict in
     main fs args
     = ([hello; EvPrint "Loading sparse evidences...";
         EvPrint "Loading claims data..."; EvSetStartMethod "fork"]
        ++ r.1, r.2)).
Proof.
  intros train_p evidence_p hello Ht Hc.
  unfold main, joblib_load. fold train_p evidence_p hello.
  rewrite Ht, Hc. split.
  - intros Hs. rewrite Hs. cbv zeta.
    unfold bind, emit, ret.
    by destruct (run args (as_list train) None cdict).
  - intros ev Hs He. rewrite Hs, He. cbv zeta.
    unfold bind, emit, ret.
    by destruct (run args (as_list train) (Some ev) cdict).
Qed.

(** *** The best accuracy at the end of a run *)

Lemma epochs_final_best F train_dl val_dl B :
  (forall e, nonempty_batches (yielded train_dl e)) ->
  forall n k tr0 st tr st',
    best_accuracy st = Fin (max_accuracy (accuracies tr0)) ->
    (forall ck, last (saved tr0) = Some ck ->
       ck_best_accuracy ck = best_accuracy st) ->
    for_each (epoch_body F train_dl val_dl B) (seq k n) st = (tr, Ok st') ->
    best_accuracy st' = Fin (max_accuracy (accuracies (tr0 ++ tr))) /\
    (forall ck, last (saved (tr0 ++ tr)) = Some ck ->
       ck_best_accuracy ck = best_accuracy st').
Proof.
  intros Hne n. induction n as [|n IH]; intros k tr0 st tr st' Hb Hl H.
  - injection H as <- <-. by rewrite app_nil_r.
  - change (seq k (S n)) with (k :: seq (S k) n) in H.
    rewrite for_each_cons in H.
    destruct (epoch_body F train_dl val_dl B st k) as [l1 [st1|x]] eqn:E;
      [|discriminate H].
    unfold bind in H.
    destruct (for_each _ (seq (S k) n) st1) as [l2 r] eqn:E2.
    injection H as <- ->.
    apply epoch_body_ok_inv in E as (l0 & q & m & -> & Hq & Hb1); [|done].
    rewrite app_assoc. eapply IH; [| |exact E2].
    + destruct (quiet_log _ Hq) as [Hq1 _].
      destruct (epoch_end_events_quiet_prefix k m (Fin q)
                  (py_max (Fin q) (best_accuracy st))) as [He1 _].
      unfold accuracies in *.
      rewrite !mean_accuracies_app, Hq1, He1, Hb1, Hb, py_max_fin.
      rewrite app_nil_l, fmap_app. simpl.
      by rewrite max_accuracy_snoc.
    + intros ck. destruct (quiet_log _ Hq) as [_ Hq2].
      destruct (epoch_end_events_quiet_prefix k m (Fin q)
                  (py_max (Fin q) (best_accuracy st))) as [_ He2].
      rewrite !saved_app, Hq2, He2, Hb1, app_nil_l.
      rewrite Hb in *. rewrite py_max_fin.
      destruct (fge (Fin q) (Fin (Qcmax q (max_accuracy (accuracies tr0)))))
        eqn:Eg.
      * rewrite last_snoc. by intros [= <-].
      * rewrite app_nil_r. intros Hck. rewrite (Hl ck Hck). f_equal.
        unfold Qcmax. destruct (decide _) as [|Hn]; [done|].
        assert (fge (Fin q) (Fin (Qcmax q (max_accuracy (accuracies tr0))))
                = true) as Ht; [|congruence].
        apply fge_max_iff. apply Qclt_le_weak. by apply Qcnot_le_lt.
Qed.

(** X14.  At the end of a run that completes, [best_accuracy] is the
    largest of the mean accuracies printed (and of the initial 0.0), and
    the checkpoint written last stores exactly that value and belongs to
    an epoch that reached it.  No batch may be empty. *)
Theorem last_checkpoint_is_best args train sparse cd tr st' :
  loader_batches_nonempty ->
  run args train sparse cd = (tr, Ok st') ->
  best_accuracy st' = Fin (max_accuracy (accuracies tr)) /\
  (forall ck, last (saved tr) = Some ck ->
     ck_best_accuracy ck = best_accuracy st' /\
     accuracies tr !! ck_epoch ck = Some (best_accuracy st')).
Proof.
  intros Hne Hrun.
  destruct (run_log_ok args train sparse cd Hne) as (k & best & Hinv).
  rewrite Hrun in Hinv. simpl in Hinv.
  cut (best_accuracy st' = Fin (max_accuracy (accuracies tr)) /\
       (forall ck, last (saved tr) = Some ck ->
          ck_best_accuracy ck = best_accuracy st')).
  { intros [Hb Hl]. split; [exact Hb|]. intros ck Hck.
    split; [by apply Hl|].
    pose proof (inv_saved _ _ _ _ Hinv) as Hsv.
    rewrite Forall_forall in Hsv.
    destruct (Hsv ck) as (_ & q & Hq & Hacc & _).
    { by eapply last_Some_elem_of. }
    unfold accuracies. rewrite Hacc, <- Hq. f_equal. by apply Hl. }
  clear Hinv. unfold run in Hrun.
  apply bind_ok_inv in Hrun as (l1 & [] & l2 & [= <-] & H & ->).
  apply bind_ok_inv in H as (l3 & [] & l4 & [= <-] & H & ->).
  apply bind_ok_inv in H as (l5 & size & l6 & E5 & H & ->).
  apply bind_ok_inv in H as (l7 & [] & l8 & E7 & H & ->).
  apply bind_ok_inv in H as (l9 & F & l10 & E9 & H & ->).
  apply bind_ok_inv in H as (l11 & [] & l12 & [= <-] & H & ->).
  assert (l5 = []) as ->.
  { unfold lift in E5. by destruct (train_size _); simplify_eq. }
  assert (l7 = []) as ->.
  { unfold throw, ret in E7. by case_bool_decide; simplify_eq. }
  assert (l9 = []) as ->.
  { unfold lift in E9. by destruct (OUTPUT_FREQ _ _); simplify_eq. }
  apply (epochs_final_best _ _ _ _ (Hne _ _ _ _ _) _ _ [] _ _ _) in H.
  - exact H.
  - reflexivity.
  - intros ck [=].
Qed.

End Run.

(** ** A toy corpus

    63 pickled examples, batch size 1: 50 training and 13 validation
    examples, so [OUTPUT_FREQ = 1].  The toy model answers logit 1 for its
    first 50 optimizer steps and logit -1 afterwards; every label is 1 and
    every loss is 1. *)
Module Toy.

Definition forward (training : bool) (m : nat) (c e : unit) : list pyfloat :=
  if bool_decide (m < 50)%nat then [Fin Qc1] else [Fin (- Qc1)%Qc].

Definition bce (y_pred y : list pyfloat) : pyfloat := Fin Qc1.

Definition sigmoid (x : pyfloat) : pyfloat :=
  match x with
  | Fin q => if bool_decide (0 < q)%Qc then Fin (Q2Qc (3 # 4)) else Fin (Q2Qc (1 # 4))
  | NaN => NaN
  end.

Definition step (m : nat) (c e : unit) (y : list pyfloat) : nat := S m.

Definition recall (y p : list pyfloat) : pyfloat := Fin Qc1.

Definition one : Batch := {| claims := tt; evidences := tt; labels := [Fin Qc1] |}.

Definition batches (n B : Z) : list (@Batch unit unit) :=
  replicate (Z.to_nat ((n + B - 1) / B)) one.

Definition loader (xs : list nat) (cd : nat) (dbs : Z) (sparse : option nat)
    (B : Z) : @DataLoader unit unit :=
  {| dataset_len := Z.of_nat (length xs);
     loader_len := (Z.of_nat (length xs) + B - 1) / B;
     yielded := fun _ => batches (Z.of_nat (length xs)) B |}.

Definition as_list (o : nat) : list nat := replicate o 0%nat.

Definition args : Args :=
  {| batch_size := 1; data_batch_size := 8;
     learning_rate := Fin (Q2Qc (1 # 1000));
     epochs := 2; data := "data"; sparse_evidences := true |}.

(** A disk without [evidence.pkl]. *)
Definition disk : gmap string nat :=
  {[ "data/train.pkl"%string := 63%nat; "new_claims_dict.pkl"%string := 0%nat ]}.

Definition run_toy : M (Claims:=unit) (Evidences:=unit) (Model:=nat) locals :=
  run forward bce sigmoid step recall 0%nat loader args (as_list 63) None 0%nat.

Definition log : list event := run_toy.1.

(** The value of a float, without the proof that the fraction is reduced. *)
Definition value (x : pyfloat) : option Q :=
  match x with
  | Fin q => Some (this q)
  | NaN => None
  end.

End Toy.

Lemma value_fin (x : pyfloat) (q : Qc) : Toy.value x = Some (this q) -> x = Fin q.
Proof.
  destruct x as [p|]; [|done]. intros [= E]. f_equal.
  apply Qc_is_canon. by rewrite E.
Qed.

Lemma toy_batches_nonempty : loader_batches_nonempty Toy.loader.
Proof.
  intros xs cd dbs sp bs e. unfold nonempty_batches. simpl. unfold Toy.batches.
  apply Forall_replicate. done.
Qed.

(** The exact and the binary64 versions of the two sizes agree on every
    corpus of fewer than 3000 examples, for the batch sizes 1 to 8. *)
Example binary64_train_size_agrees :
  forallb (fun N => same_int (Binary64.train_size N) (train_size N))
    (seqZ 0 3000) = true.
Proof. vm_compute. reflexivity. Qed.

Example binary64_output_freq_agrees :
  forallb (fun L =>
    forallb (fun B => same_int (Binary64.OUTPUT_FREQ L B) (OUTPUT_FREQ L B))
      (seqZ 1 8))
    (seqZ 0 3000) = true.
Proof. vm_compute. reflexivity. Qed.

Example round_ties_to_even :
  map (fun q => this (round_half_even (Q2Qc q)))
    [1 # 2; 3 # 2; 5 # 2; 3 # 4; 1 # 4; - (1 # 2); - (3 # 2)]%Q
  = [0 # 1; 2 # 1; 2 # 1; 1 # 1; 0 # 1; 0 # 1; - (2 # 1)]%Q.
Proof. vm_compute. reflexivity. Qed.

Example output_freq_2_1 : OUTPUT_FREQ 2 1 = Ok 0.
Proof. vm_compute. reflexivity. Qed.
Example output_freq_49_1 : OUTPUT_FREQ 49 1 = Ok 0.
Proof. vm_compute. reflexivity. Qed.
Example output_freq_50_1 : OUTPUT_FREQ 50 1 = Ok 1.
Proof. vm_compute. reflexivity. Qed.
Example output_freq_1000_4 : OUTPUT_FREQ 1000 4 = Ok 5.
Proof. vm_compute. reflexivity. Qed.
Example train_size_10 : train_size 10 = Ok 8.
Proof. vm_compute. reflexivity. Qed.
Example train_size_63 : train_size 63 = Ok 50.
Proof. vm_compute. reflexivity. Qed.

Example toy_accuracies :
  map (fun p => (p.1, Toy.value p.2)) (mean_accuracies Toy.log)
  = [(0%nat, Some (1 # 1)%Q); (1%nat, Some (0 # 1)%Q)].
Proof. vm_compute. reflexivity. Qed.

Example toy_saved_epochs : map ck_epoch (saved Toy.log) = [0%nat].
Proof. vm_compute. reflexivity. Qed.

(** ** The theorems at work on the toy corpus *)

Lemma checkpoint_written_iff_witness :
  exists acc,
    mean_accuracies Toy.log !! 1%nat = Some (1%nat, acc) /\
    1%nat = 1%nat /\
    exists q, acc = Fin q /\
      (written_at Toy.log 1
       <-> (max_accuracy (take 1 (accuracies Toy.log)) <= q)%Qc).
Proof.
  assert (E : exists acc, mean_accuracies Toy.log !! 1%nat = Some (1%nat, acc))
    by (vm_compute; eexists; reflexivity).
  destruct E as [acc E]. exists acc. split; [exact E|].
  exact (checkpoint_written_iff Toy.forward Toy.bce Toy.sigmoid Toy.step
           Toy.recall 0%nat Toy.loader Toy.args (Toy.as_list 63) None 0%nat
           toy_batches_nonempty 1%nat 1%nat acc E).
Defined.

Lemma persisted_best_monotone_witness :
  StronglySorted fle (ck_best_accuracy <$> saved Toy.log).
Proof.
  exact (proj1 (persisted_best_monotone Toy.forward Toy.bce Toy.sigmoid Toy.step
                  Toy.recall 0%nat Toy.loader Toy.args (Toy.as_list 63) None
                  0%nat toy_batches_nonempty)).
Defined.

Lemma OUTPUT_FREQ_positive_iff_witness :
  exists F : Z,
    OUTPUT_FREQ 50 1 = Ok F /\
    F = Qfloor (inject_Z 50 / inject_Z 1 * (2 # 100)) /\
    (0 < F <-> 50 * 1 <= 50) /\
    forall args train sparse cd size,
      batch_size args = 1 ->
      train_size (Z.of_nat (length train)) = Ok size ->
      let train_dl :=
        Toy.loader (slice_to size train) cd (data_batch_size args) sparse 1 in
      let val_dl :=
        Toy.loader (slice_from size train) cd (data_batch_size args) sparse 1 in
      dataset_len train_dl = 50 ->
      let loop :=
        for_each
          (epoch_body Toy.forward Toy.bce Toy.sigmoid Toy.step Toy.recall
             F train_dl val_dl 1)
          (seq 0 (Z.to_nat (epochs args))) (init_locals 0%nat) in
      run Toy.forward Toy.bce Toy.sigmoid Toy.step Toy.recall 0%nat Toy.loader
        args train sparse cd
      = ([EvPrint "Created model..."; EvPrint "Created dataset...";
          EvPrint "Training..."] ++ loop.1, loop.2).
Proof.
  apply (OUTPUT_FREQ_positive_iff Toy.forward Toy.bce Toy.sigmoid Toy.step
           Toy.recall 0%nat Toy.loader 50 1); lia.
Defined.

(** C3 as stated fails on two training examples and batch size 1. *)
Lemma OUTPUT_FREQ_positive_counterexample :
  ~ (1 < 2 -> exists F : Z, OUTPUT_FREQ 2 1 = Ok F /\ 0 < F).
Proof.
  intros H. destruct H as (F & E & HF); [lia|].
  vm_compute in E. injection E as <-. lia.
Qed.

Module ToyEpoch.

Definition train_dl : @DataLoader unit unit :=
  Toy.loader (replicate 50 0%nat) 0%nat 8 None 1.
Definition val_dl : @DataLoader unit unit :=
  Toy.loader (replicate 13 0%nat) 0%nat 8 None 1.

(** A second validation set: as many batches, other labels. *)
Definition other : Batch :=
  {| claims := tt; evidences := tt; labels := [Fin Qc0; Fin Qc0] |}.
Definition val_dl' : @DataLoader unit unit :=
  {| dataset_len := 13; loader_len := 13;
     yielded := fun _ => replicate 13 other |}.

Definition st0 : @locals unit unit nat := init_locals 0%nat.

(** The locals when the first validation loop starts. *)
Definition st_val : @locals unit unit nat :=
  {| model := 50%nat; best_accuracy := zero;
     inputs := Some Toy.one; loss := Some (Fin Qc1);
     mean_train_acc := Fin (Qc_of_Z 50);
     train_running_loss := zero; train_running_accuracy := zero;
     val_running_loss := zero; val_running_accuracy := zero |}.

End ToyEpoch.

Lemma validation_reads_train_inputs_witness :
  epoch_body Toy.forward Toy.bce Toy.sigmoid Toy.step Toy.recall 1
    ToyEpoch.train_dl ToyEpoch.val_dl 1 ToyEpoch.st0 0
  = epoch_body Toy.forward Toy.bce Toy.sigmoid Toy.step Toy.recall 1
      ToyEpoch.train_dl ToyEpoch.val_dl' 1 ToyEpoch.st0 0.
Proof.
  refine (proj1 (validation_reads_train_inputs Toy.forward Toy.bce Toy.sigmoid
                   Toy.step Toy.recall 1 ToyEpoch.train_dl ToyEpoch.val_dl
                   ToyEpoch.val_dl' 1 ToyEpoch.st0 0%nat _ _)).
  - reflexivity.
  - vm_compute. reflexivity.
Defined.

Lemma train_accuracy_fraction_witness :
  exists tr st',
    train_body Toy.forward Toy.bce Toy.sigmoid Toy.step Toy.recall 1 0
      ToyEpoch.train_dl 1 ToyEpoch.st0 (0%nat, Toy.one) = (tr, Ok st') /\
    exists a : Qc,
      batch_accuracy [Fin Qc1] (map (fun x => fround (Toy.sigmoid x)) [Fin Qc1])
      = Ok (Fin a) /\
      mean_train_acc st' = fadd zero (Fin a) /\
      a = (Qc_of_Z (Z.of_nat (matches [Fin Qc1]
                                 (map (fun x => fround (Toy.sigmoid x)) [Fin Qc1])))
           / Qc_of_Z (Z.of_nat 1))%Qc /\
      (0 <= a)%Qc /\ (a <= 1)%Qc.
Proof.
  assert (E : exists tr st',
            train_body Toy.forward Toy.bce Toy.sigmoid Toy.step Toy.recall 1 0
              ToyEpoch.train_dl 1 ToyEpoch.st0 (0%nat, Toy.one) = (tr, Ok st'))
    by (vm_compute; eexists _, _; reflexivity).
  destruct E as (tr & st' & E). exists tr, st'. split; [exact E|].
  refine (train_accuracy_fraction Toy.forward Toy.bce Toy.sigmoid Toy.step
            Toy.recall 1 0%nat ToyEpoch.train_dl 1 ToyEpoch.st0 0%nat Toy.one
            tr st' _ E).
  discriminate.
Defined.

Lemma missing_evidence_fails_at_startup_witness :
  exists tr p,
    main Toy.forward Toy.bce Toy.sigmoid Toy.step Toy.recall 0%nat Toy.loader
      Toy.as_list Toy.disk Toy.args = (tr, Raise (FileNotFoundError p)) /\
    (tr = [EvPrint ("Loading " +:+ data Toy.args)] /\
       p = path_join (data Toy.args) "train.pkl"
     \/ tr = [EvPrint ("Loading " +:+ data Toy.args);
              EvPrint "Loading sparse evidences..."] /\
       p = path_join (data Toy.args) "evidence.pkl") /\
    (EvSetStartMethod "fork" ∉ tr) /\
    (EvPrint "Created model..." ∉ tr) /\
    (forall t c e, EvForward t c e ∉ tr) /\
    mean_accuracies tr = [].
Proof.
  apply (missing_evidence_fails_at_startup Toy.forward Toy.bce Toy.sigmoid
           Toy.step Toy.recall 0%nat Toy.loader Toy.as_list Toy.disk Toy.args).
  - reflexivity.
  - vm_compute. reflexivity.
Defined.

Example toy_startup_trace :
  main Toy.forward Toy.bce Toy.sigmoid Toy.step Toy.recall 0%nat Toy.loader
    Toy.as_list Toy.disk Toy.args
  = ([EvPrint "Loading data"; EvPrint "Loading sparse evidences..."],
     Raise (FileNotFoundError "data/evidence.pkl")).
Proof. vm_compute. reflexivity. Qed.

Lemma small_training_set_raises_witness :
  exists F,
    OUTPUT_FREQ 49 1 = Ok F /\
    (49 < 50 * 1 -> F = 0) /\
    forall epoch dl st b bs,
      dataset_len dl = 49 ->
      yielded dl epoch = b :: bs ->
      (forall m b', b' ∈ b :: bs ->
         length (Toy.forward true m (claims b') (evidences b'))
         = length (labels b')) ->
      (49 < 50 * 1 ->
         train_loop Toy.forward Toy.bce Toy.sigmoid Toy.step Toy.recall
           F epoch dl 1 st
         = ([EvForward true (claims b) (evidences b)], Raise ZeroDivisionError)) /\
      (50 * 1 <= 49 ->
         exists tr st',
           train_loop Toy.forward Toy.bce Toy.sigmoid Toy.step Toy.recall
             F epoch dl 1 st = (tr, Ok st')) /\
      (forall tr st',
         train_loop Toy.forward Toy.bce Toy.sigmoid Toy.step Toy.recall
           F epoch dl 1 st = (tr, Ok st') -> 50 * 1 <= 49).
Proof.
  apply (small_training_set_raises Toy.forward Toy.bce Toy.sigmoid Toy.step
           Toy.recall 49 1); lia.
Defined.

Example toy_small_run_raises :
  run Toy.forward Toy.bce Toy.sigmoid Toy.step Toy.recall 0%nat Toy.loader
    Toy.args (Toy.as_list 62) None 0%nat
  = ([EvPrint "Created model..."; EvPrint "Created dataset...";
      EvPrint "Training..."; EvForward true tt tt],
     Raise ZeroDivisionError).
Proof. vm_compute. reflexivity. Qed.

Lemma validation_loss_is_stale_witness :
  exists tr st',
    val_loop Toy.forward Toy.sigmoid Toy.recall 1 0 ToyEpoch.val_dl 1
      ToyEpoch.st_val = (tr, Ok st') /\
    loss st' = Some (Fin Qc1) /\
    val_running_loss st' = Fin (Qc_of_Z (window_count 1 13) * Qc1) /\
    (forall j r, val_reports tr !! S j = Some r -> rp_loss r = Fin Qc1).
Proof.
  assert (E : exists tr st',
            val_loop Toy.forward Toy.sigmoid Toy.recall 1 0 ToyEpoch.val_dl 1
              ToyEpoch.st_val = (tr, Ok st'))
    by (vm_compute; eexists _, _; reflexivity).
  destruct E as (tr & st' & E). exists tr, st'. split; [exact E|].
  destruct (validation_loss_is_stale Toy.forward Toy.bce Toy.sigmoid Toy.step
              Toy.recall 1 0%nat ToyEpoch.val_dl 1 ToyEpoch.st_val tr st' Qc1)
    as (H1 & H2 & _ & H4 & _).
  - lia.
  - reflexivity.
  - reflexivity.
  - exact E.
  - split; [exact H1|]. split; [exact H2|exact H4].
Defined.

(** C10 as stated fails on the toy run: after the 13 validation
    batches of the last epoch [val_running_loss] is 0, not 13 times the
    stale loss 1, and the first validation report shows 2, not 1. *)
Lemma validation_loss_counterexample :
  exists st,
    Toy.run_toy.2 = Ok st /\
    loss st = Some (Fin Qc1) /\
    length (yielded ToyEpoch.val_dl 1) = 13%nat /\
    val_running_loss st <> fmul (float_of_int 13) (Fin Qc1) /\
    exists r, val_reports Toy.log !! 0%nat = Some r /\ rp_loss r <> Fin Qc1.
Proof.
  assert (E : exists st,
            Toy.run_toy.2 = Ok st /\
            loss st = Some (Fin Qc1) /\
            Toy.value (val_running_loss st) = Some (0 # 1)%Q /\
            exists r, val_reports Toy.log !! 0%nat = Some r /\
                      Toy.value (rp_loss r) = Some (2 # 1)%Q).
  { vm_compute. eexists. repeat split; try reflexivity.
    eexists. split; reflexivity. }
  destruct E as (st & E1 & E2 & E3 & r & E4 & E5).
  exists st. split; [exact E1|]. split; [exact E2|].
  split; [vm_compute; reflexivity|]. split.
  - intros H. rewrite H in E3. vm_compute in E3. discriminate E3.
  - exists r. split; [exact E4|].
    intros H. rewrite H in E5. vm_compute in E5. discriminate E5.
Qed.

(** C5.  On the toy run [OUTPUT_FREQ] is 1 and every training batch has
    accuracy 1 and loss 1, yet the first training report of the run shows
    accuracy 2 and loss 2: its sums hold the batches 0 and 1 and are
    divided by [OUTPUT_FREQ = 1].  The second report shows 1 and 1. *)
Theorem first_train_report_is_not_a_mean :
  OUTPUT_FREQ (dataset_len ToyEpoch.train_dl) (batch_size Toy.args) = Ok 1 /\
  batch_accuracy (labels Toy.one)
    (map (fun x => fround (Toy.sigmoid x)) (Toy.forward true 0 tt tt))
  = Ok (Fin Qc1) /\
  exists r r',
    train_reports Toy.log !! 0%nat = Some r /\
    rp_accuracy r = Fin (Qc_of_Z 2) /\ rp_loss r = Fin (Qc_of_Z 2) /\
    train_reports Toy.log !! 1%nat = Some r' /\
    rp_accuracy r' = Fin (Qc_of_Z 1) /\ rp_loss r' = Fin (Qc_of_Z 1).
Proof.
  split; [vm_compute; reflexivity|]. split.
  { rewrite batch_accuracy_fraction by done. do 2 f_equal.
    apply Qc_is_canon. vm_compute. reflexivity. }
  assert (E : exists r r',
            train_reports Toy.log !! 0%nat = Some r /\
            Toy.value (rp_accuracy r) = Some (2 # 1)%Q /\
            Toy.value (rp_loss r) = Some (2 # 1)%Q /\
            train_reports Toy.log !! 1%nat = Some r' /\
            Toy.value (rp_accuracy r') = Some (1 # 1)%Q /\
            Toy.value (rp_loss r') = Some (1 # 1)%Q).
  { vm_compute. eexists _, _. repeat split; reflexivity. }
  destruct E as (r & r' & E1 & E2 & E3 & E4 & E5 & E6).
  exists r, r'.
  split; [exact E1|]. split; [apply value_fin; exact E2|].
  split; [apply value_fin; exact E3|]. split; [exact E4|].
  split; apply value_fin; [exact E5|exact E6].
Qed.


(** ** The further properties on the toy corpus *)

Module ToyMore.

(** The toy loader with [len(loader)] read off the batches it yields. *)
Definition loader (xs : list nat) (cd : nat) (dbs : Z) (sparse : option nat)
    (B : Z) : @DataLoader unit unit :=
  {| dataset_len := Z.of_nat (length xs);
     loader_len := Z.of_nat (length (Toy.batches (Z.of_nat (length xs)) B));
     yielded := fun _ => Toy.batches (Z.of_nat (length xs)) B |}.

(** The toy arguments for a single epoch. *)
Definition one_epoch : Args :=
  {| batch_size := 1; data_batch_size := 8;
     learning_rate := Fin (Q2Qc (1 # 1000));
     epochs := 1; data := "data"; sparse_evidences := true |}.

Definition log : list event :=
  (run Toy.forward Toy.bce Toy.sigmoid Toy.step Toy.recall 0%nat loader
     one_epoch (Toy.as_list 63) None 0%nat).1.

(** A loader of a single batch. *)
Definition tiny_dl : @DataLoader unit unit :=
  {| dataset_len := 1; loader_len := 1; yielded := fun _ => [Toy.one] |}.

(** A loader over an empty dataset. *)
Definition empty_dl : @DataLoader unit unit :=
  {| dataset_len := 0; loader_len := 0; yielded := fun _ => [] |}.

(** The toy arguments without [--sparse-evidences]. *)
Definition dense_args : Args :=
  {| batch_size := 1; data_batch_size := 8;
     learning_rate := Fin (Q2Qc (1 # 1000));
     epochs := 2; data := "data"; sparse_evidences := false |}.

(** A disk with all three pickles. *)
Definition full_disk : gmap string nat :=
  <[ "data/evidence.pkl"%string := 7%nat ]> Toy.disk.

End ToyMore.

Lemma toy_more_batches_nonempty : loader_batches_nonempty ToyMore.loader.
Proof.
  intros xs cd dbs sp bs e. unfold nonempty_batches. simpl. unfold Toy.batches.
  apply Forall_replicate. done.
Qed.

Lemma toy_more_len_exact : loader_len_exact ToyMore.loader.
Proof. intros xs cd dbs sp bs e. reflexivity. Qed.

Lemma toy_well_sized xs cd dbs sp B :
  well_sized Toy.forward (Toy.loader xs cd dbs sp B).
Proof.
  intros e t m b Hb. simpl in Hb. unfold Toy.batches in Hb.
  apply elem_of_replicate in Hb as [-> _].
  unfold Toy.forward. by case_bool_decide.
Qed.

Lemma validation_frame_witness :
  exists tr st',
    val_loop Toy.forward Toy.sigmoid Toy.recall 1 0 ToyEpoch.val_dl 1
      ToyEpoch.st_val = (tr, Ok st') /\
    model st' = model ToyEpoch.st_val /\
    best_accuracy st' = best_accuracy ToyEpoch.st_val /\
    inputs st' = inputs ToyEpoch.st_val /\
    loss st' = loss ToyEpoch.st_val /\
    mean_train_acc st' = mean_train_acc ToyEpoch.st_val /\
    train_running_loss st' = train_running_loss ToyEpoch.st_val /\
    train_running_accuracy st' = train_running_accuracy ToyEpoch.st_val.
Proof.
  assert (E : exists tr st',
            val_loop Toy.forward Toy.sigmoid Toy.recall 1 0 ToyEpoch.val_dl 1
              ToyEpoch.st_val = (tr, Ok st'))
    by (vm_compute; eexists _, _; reflexivity).
  destruct E as (tr & st' & E). exists tr, st'. split; [exact E|].
  exact (validation_frame Toy.forward Toy.sigmoid Toy.recall 1 0%nat
           ToyEpoch.val_dl 1 ToyEpoch.st_val tr st' E).
Defined.

Lemma train_loop_steps_witness :
  exists tr st',
    train_loop Toy.forward Toy.bce Toy.sigmoid Toy.step Toy.recall 1 0
      ToyEpoch.train_dl 1 ToyEpoch.st0 = (tr, Ok st') /\
    model st' = steps Toy.step (model ToyEpoch.st0) (yielded ToyEpoch.train_dl 0) /\
    forwards tr
    = map (fun b => (true, claims b, evidences b)) (yielded ToyEpoch.train_dl 0) /\
    best_accuracy st' = best_accuracy ToyEpoch.st0 /\
    val_running_loss st' = val_running_loss ToyEpoch.st0 /\
    val_running_accuracy st' = val_running_accuracy ToyEpoch.st0.
Proof.
  assert (E : exists tr st',
            train_loop Toy.forward Toy.bce Toy.sigmoid Toy.step Toy.recall 1 0
              ToyEpoch.train_dl 1 ToyEpoch.st0 = (tr, Ok st'))
    by (vm_compute; eexists _, _; reflexivity).
  destruct E as (tr & st' & E). exists tr, st'. split; [exact E|].
  exact (train_loop_steps Toy.forward Toy.bce Toy.sigmoid Toy.step Toy.recall
           1 0%nat ToyEpoch.train_dl 1 ToyEpoch.st0 tr st' E).
Defined.

Example toy_steps : steps Toy.step 0%nat (yielded ToyEpoch.train_dl 0) = 50%nat.
Proof. vm_compute. reflexivity. Qed.

Lemma report_count_witness :
  exists tr st' tr1 st1',
    train_loop Toy.forward Toy.bce Toy.sigmoid Toy.step Toy.recall 1 0
      ToyEpoch.train_dl 1 ToyEpoch.st0 = (tr, Ok st') /\
    val_loop Toy.forward Toy.sigmoid Toy.recall 1 0 ToyEpoch.val_dl 1
      ToyEpoch.st_val = (tr1, Ok st1') /\
    Z.of_nat (length (train_reports tr))
    = reports_before 1 (Z.of_nat (length (yielded ToyEpoch.train_dl 0))) /\
    Z.of_nat (length (val_reports tr1))
    = reports_before 1 (Z.of_nat (length (yielded ToyEpoch.val_dl 0))) /\
    forall n, 1 <= n -> reports_before 1 n = (n - 1) / 1.
Proof.
  assert (E : exists tr st',
            train_loop Toy.forward Toy.bce Toy.sigmoid Toy.step Toy.recall 1 0
              ToyEpoch.train_dl 1 ToyEpoch.st0 = (tr, Ok st'))
    by (vm_compute; eexists _, _; reflexivity).
  assert (E1 : exists tr st',
            val_loop Toy.forward Toy.sigmoid Toy.recall 1 0 ToyEpoch.val_dl 1
              ToyEpoch.st_val = (tr, Ok st'))
    by (vm_compute; eexists _, _; reflexivity).
  destruct E as (tr & st' & E). destruct E1 as (tr1 & st1' & E1).
  exists tr, st', tr1, st1'. split; [exact E|]. split; [exact E1|].
  apply (report_count Toy.forward Toy.bce Toy.sigmoid Toy.step Toy.recall
           1 0%nat ToyEpoch.train_dl ToyEpoch.val_dl 1 ToyEpoch.st0 tr st'
           ToyEpoch.st_val tr1 st1').
  - lia.
  - exact E.
  - exact E1.
Defined.

Example toy_report_counts :
  reports_before 1 50 = 49 /\ reports_before 1 13 = 12 /\
  reports_before 5 200 = 39 /\ reports_before 5 0 = 0.
Proof. vm_compute. done. Qed.

Lemma report_count_bounds_witness :
  exists F,
    OUTPUT_FREQ 1000 4 = Ok F /\ 1 <= F /\ 49 <= reports_before F 250 <= 99.
Proof. apply (report_count_bounds 1000 4 250); lia. Defined.

Lemma checkpoint_contents_witness :
  exists tr res ck f,
    epoch_body Toy.forward Toy.bce Toy.sigmoid Toy.step Toy.recall 1
      ToyMore.tiny_dl ToyMore.tiny_dl 1 ToyEpoch.st0 0 = (tr, res) /\
    tr !! 5%nat = Some (EvSave ck f) /\
    ck_epoch ck = 0%nat /\
    ck_state_dict ck
    = steps Toy.step (model ToyEpoch.st0) (yielded ToyMore.tiny_dl 0) /\
    ck_best_accuracy ck = f /\
    (exists q, f = Fin q) /\
    EvMeanAccuracy 0 f ∈ tr.
Proof.
  assert (E : exists tr res ck f,
            epoch_body Toy.forward Toy.bce Toy.sigmoid Toy.step Toy.recall 1
              ToyMore.tiny_dl ToyMore.tiny_dl 1 ToyEpoch.st0 0 = (tr, res) /\
            tr !! 5%nat = Some (EvSave ck f))
    by (vm_compute; eexists _, _, _, _; split; reflexivity).
  destruct E as (tr & res & ck & f & E1 & E2). exists tr, res, ck, f.
  split; [exact E1|]. split; [exact E2|].
  exact (proj1 (checkpoint_contents Toy.forward Toy.bce Toy.sigmoid Toy.step
                  Toy.recall 0%nat Toy.loader)
           1 ToyMore.tiny_dl ToyMore.tiny_dl 1 ToyEpoch.st0 0%nat tr res ck f
           E1 (list_elem_of_lookup_2 tr 5 (EvSave ck f) E2)).
Defined.

Lemma toy_more_first_accuracy :
  exists a, mean_accuracies ToyMore.log !! 0%nat = Some (0%nat, a).
Proof. vm_compute. eexists. reflexivity. Qed.

Lemma printed_accuracy_in_unit_interval_witness :
  exists a,
    mean_accuracies ToyMore.log !! 0%nat = Some (0%nat, a) /\
    exists q, a = Fin q /\ (0 <= q <= 1)%Qc.
Proof.
  destruct toy_more_first_accuracy as [a E]. exists a. split; [exact E|].
  exact (printed_accuracy_in_unit_interval Toy.forward Toy.bce Toy.sigmoid
           Toy.step Toy.recall 0%nat ToyMore.loader ToyMore.one_epoch
           (Toy.as_list 63) None 0%nat 0%nat a toy_more_batches_nonempty
           toy_more_len_exact
           (list_elem_of_lookup_2 (mean_accuracies ToyMore.log) 0 (0%nat, a) E)).
Defined.

Lemma first_epoch_writes_checkpoint_witness :
  exists a,
    mean_accuracies ToyMore.log !! 0%nat = Some (0%nat, a) /\
    written_at ToyMore.log 0.
Proof.
  destruct toy_more_first_accuracy as [a E]. exists a. split; [exact E|].
  exact (first_epoch_writes_checkpoint Toy.forward Toy.bce Toy.sigmoid
           Toy.step Toy.recall 0%nat ToyMore.loader ToyMore.one_epoch
           (Toy.as_list 63) None 0%nat a toy_more_batches_nonempty
           toy_more_len_exact
           (list_elem_of_lookup_2 (mean_accuracies ToyMore.log) 0 (0%nat, a) E)).
Defined.

Lemma epoch_without_training_batches_witness :
  epoch_body Toy.forward Toy.bce Toy.sigmoid Toy.step Toy.recall 0
    ToyMore.empty_dl ToyEpoch.val_dl 1 ToyEpoch.st0 0
  = ([EvPrint "Running validation..."], Raise (NameError "inputs")) /\
  epoch_body Toy.forward Toy.bce Toy.sigmoid Toy.step Toy.recall 0
    ToyMore.empty_dl ToyMore.empty_dl 1 ToyEpoch.st0 0
  = ([EvPrint "Running validation..."], Raise ZeroDivisionError).
Proof.
  split.
  - apply (proj1 (epoch_without_training_batches Toy.forward Toy.bce
                    Toy.sigmoid Toy.step Toy.recall 0 ToyMore.empty_dl
                    ToyEpoch.val_dl 1 ToyEpoch.st0 0%nat eq_refl eq_refl)).
    vm_compute. discriminate.
  - apply (proj2 (epoch_without_training_batches Toy.forward Toy.bce
                    Toy.sigmoid Toy.step Toy.recall 0 ToyMore.empty_dl
                    ToyMore.empty_dl 1 ToyEpoch.st0 0%nat eq_refl eq_refl));
      reflexivity.
Defined.

Lemma validation_reports_repeat_witness :
  exists tr st',
    val_loop Toy.forward Toy.sigmoid Toy.recall 1 0 ToyEpoch.val_dl 1
      ToyEpoch.st_val = (tr, Ok st') /\
    exists a : Qc,
      batch_accuracy (labels Toy.one)
        (predict Toy.sigmoid
           (Toy.forward false (model ToyEpoch.st_val) (claims Toy.one)
              (evidences Toy.one)))
      = Ok (Fin a) /\
      match val_reports tr with
      | [] => True
      | r :: rs =>
          rp_loss r = Fin (Qc_of_Z (1 + 1) * Qc1 / Qc_of_Z 1) /\
          rp_accuracy r = Fin (Qc_of_Z (1 + 1) * a / Qc_of_Z 1) /\
          Forall (fun r' => rp_loss r' = Fin Qc1 /\ rp_accuracy r' = Fin a) rs
      end.
Proof.
  assert (E : exists tr st',
            val_loop Toy.forward Toy.sigmoid Toy.recall 1 0 ToyEpoch.val_dl 1
              ToyEpoch.st_val = (tr, Ok st'))
    by (vm_compute; eexists _, _; reflexivity).
  destruct E as (tr & st' & E). exists tr, st'. split; [exact E|].
  apply (validation_reports_repeat Toy.forward Toy.sigmoid Toy.recall 1 0%nat
           ToyEpoch.val_dl 1 ToyEpoch.st_val tr st' Toy.one Qc1).
  - lia.
  - reflexivity.
  - reflexivity.
  - discriminate.
  - reflexivity.
  - reflexivity.
  - reflexivity.
  - exact E.
Defined.

Lemma run_completes_witness :
  exists tr st',
    run Toy.forward Toy.bce Toy.sigmoid Toy.step Toy.recall 0%nat Toy.loader
      Toy.args (Toy.as_list 63) None 0%nat = (tr, Ok st') /\
    (mean_accuracies tr).*1 = seq 0 (Z.to_nat (epochs Toy.args)).
Proof.
  apply (run_completes Toy.forward Toy.bce Toy.sigmoid Toy.step Toy.recall
           0%nat Toy.loader Toy.args (Toy.as_list 63) None 0%nat).
  - vm_compute. discriminate.
  - vm_compute. discriminate.
  - vm_compute. discriminate.
  - vm_compute. discriminate.
  - intros e. vm_compute. discriminate.
  - apply toy_well_sized.
Defined.


Lemma main_first_missing_file_witness :
  main Toy.forward Toy.bce Toy.sigmoid Toy.step Toy.recall 0%nat Toy.loader
    Toy.as_list Toy.disk Toy.args
  = ([EvPrint ("Loading " +:+ data Toy.args);
      EvPrint "Loading sparse evidences..."],
     Raise (FileNotFoundError (path_join (data Toy.args) "evidence.pkl"))) /\
  main Toy.forward Toy.bce Toy.sigmoid Toy.step Toy.recall 0%nat Toy.loader
    Toy.as_list (delete "new_claims_dict.pkl"%string Toy.disk) ToyMore.dense_args
  = ([EvPrint ("Loading " +:+ data ToyMore.dense_args);
      EvPrint "Loading claims data..."],
     Raise (FileNotFoundError "new_claims_dict.pkl")).
Proof.
  split.
  - apply (proj1 (proj2 (main_first_missing_file Toy.forward Toy.bce
                           Toy.sigmoid Toy.step Toy.recall 0%nat Toy.loader
                           Toy.as_list Toy.disk Toy.args))).
    + exists 63%nat. vm_compute. reflexivity.
    + reflexivity.
    + vm_compute. reflexivity.
  - apply (proj2 (proj2 (main_first_missing_file Toy.forward Toy.bce
                           Toy.sigmoid Toy.step Toy.recall 0%nat Toy.loader
                           Toy.as_list
                           (delete "new_claims_dict.pkl"%string Toy.disk)
                           ToyMore.dense_args))).
    + exists 63%nat. vm_compute. reflexivity.
    + discriminate.
    + vm_compute. reflexivity.
Defined.

Lemma main_hands_over_to_run_witness :
  (let r := run Toy.forward Toy.bce Toy.sigmoid Toy.step Toy.recall 0%nat
              Toy.loader ToyMore.dense_args (Toy.as_list 63) None 0%nat in
   main Toy.forward Toy.bce Toy.sigmoid Toy.step Toy.recall 0%nat Toy.loader
     Toy.as_list Toy.disk ToyMore.dense_args
   = ([EvPrint ("Loading " +:+ data ToyMore.dense_args);
       EvPrint "Loading claims data..."; EvSetStartMethod "fork"] ++ r.1, r.2)) /\
  (let r := run Toy.forward Toy.bce Toy.sigmoid Toy.step Toy.recall 0%nat
              Toy.loader Toy.args (Toy.as_list 63) (Some 7%nat) 0%nat in
   main Toy.forward Toy.bce Toy.sigmoid Toy.step Toy.recall 0%nat Toy.loader
     Toy.as_list ToyMore.full_disk Toy.args
   = ([EvPrint ("Loading " +:+ data Toy.args);
       EvPrint "Loading sparse evidences...";
       EvPrint "Loading claims data..."; EvSetStartMethod "fork"] ++ r.1, r.2)).
Proof.
  split.
  - refine (proj1 (main_hands_over_to_run Toy.forward Toy.bce Toy.sigmoid
                     Toy.step Toy.recall 0%nat Toy.loader Toy.as_list
                     Toy.disk ToyMore.dense_args 63%nat 0%nat _ _) _).
    + vm_compute. reflexivity.
    + vm_compute. reflexivity.
    + reflexivity.
  - refine (proj2 (main_hands_over_to_run Toy.forward Toy.bce Toy.sigmoid
                     Toy.step Toy.recall 0%nat Toy.loader Toy.as_list
                     ToyMore.full_disk Toy.args 63%nat 0%nat _ _) 7%nat _ _).
    + vm_compute. reflexivity.
    + vm_compute. reflexivity.
    + reflexivity.
    + vm_compute. reflexivity.
Defined.

Lemma last_checkpoint_is_best_witness :
  exists tr st',
    run Toy.forward Toy.bce Toy.sigmoid Toy.step Toy.recall 0%nat Toy.loader
      Toy.args (Toy.as_list 63) None 0%nat = (tr, Ok st') /\
    best_accuracy st' = Fin (max_accuracy (accuracies tr)) /\
    (forall ck, last (saved tr) = Some ck ->
       ck_best_accuracy ck = best_accuracy st' /\
       accuracies tr !! ck_epoch ck = Some (best_accuracy st')).
Proof.
  assert (E : exists tr st',
            run Toy.forward Toy.bce Toy.sigmoid Toy.step Toy.recall 0%nat
              Toy.loader Toy.args (Toy.as_list 63) None 0%nat = (tr, Ok st'))
    by (vm_compute; eexists _, _; reflexivity).
  destruct E as (tr & st' & E). exists tr, st'. split; [exact E|].
  exact (last_checkpoint_is_best Toy.forward Toy.bce Toy.sigmoid Toy.step
           Toy.recall 0%nat Toy.loader Toy.args (Toy.as_list 63) None 0%nat
           tr st' toy_batches_nonempty E).
Defined.
